(** * GUI-Calculator: the safe expression evaluator and the confirm handler

    A shallow embedding of [main.py]: the whitelist table
    [_ALLOWED_OPERATORS], the tree walker [_eval], its caller [safe_eval]
    and the [Calculator] window: its handlers, the table of its buttons
    and the keys it binds.

    What the module takes from Python itself is modelled as follows.

    - The module uses an assignment expression, so it runs on CPython 3.8
      or later, where every literal parses to [ast.Constant] and [ast.Num]
      is the deprecated alias whose instance check accepts a [Constant]
      holding an [int], [float] or [complex] that is not a [bool].  Class
      names print as in CPython 3.9 and later ([<class 'ast.Name'>]).
    - [int] is [Z]; [float] is IEEE 754 binary64, as [spec_float] with
      [prec = 53] and [emax = 1024]; [complex] is a pair of floats.  The
      operators of the [operator] module follow CPython's [longobject.c],
      [floatobject.c] and [complexobject.c].
    - What CPython delegates to the C library, or to algorithms that are
      not reproduced here, is an [event] the computation raises to its
      platform: [pow] of the C library, the complex power, the text
      [str] gives a finite float or a complex, and the limit on the
      digits of an int that [str] converts (CPython 3.11 and later).
    - [ast.parse] is a parameter of [safe_eval]: a function that returns
      a tree, or nothing where [ast.parse] raises [SyntaxError].
      [ast_parse] is a reference parser for the part of the Python
      grammar that the calculator's keys, identifiers and plain string
      literals reach.
    - Limits on resources are not modelled: recursion depth and memory. *)

From Stdlib Require Import ZArith NArith Bool List Ascii String Lia.
From Stdlib Require Import Decimal DecimalString DecimalN DecimalZ DecimalPos.
From Stdlib Require Import Floats.SpecFloat.
Import ListNotations.

Set Warnings "-register-all".

#[local] Open Scope string_scope.
#[local] Open Scope Z_scope.

(** ** Exceptions *)

(** The exception classes the program meets.  A [ValueError] carries its
    message; the exceptions raised inside Python's arithmetic carry none,
    their wording differs between versions. *)
Inductive exn : Type :=
| ValueError (msg : string)
| ZeroDivisionError
| OverflowError
| TypeError.

(** ** Numbers *)

Definition prec : Z := 53.
Definition emax : Z := 1024.

Definition float : Type := spec_float.

Record complex : Type := Complex { real : float; imag : float }.

(** A Python object the evaluator can meet: the value of a literal, or a
    number computed from such values. *)
Inductive value : Type :=
| VInt (n : Z)
| VBool (b : bool)
| VFloat (x : float)
| VComplex (c : complex)
| VStr (s : string)
| VBytes (s : string)
| VNone
| VEllipsis.

(** ** Computations *)

(** What the C library answers to [pow(x, y)] once [_Py_ADJUST_ERANGE1]
    has been applied: a value, or a range error. *)
Inductive pow_answer : Type :=
| PowVal (x : float)
| PowERANGE.

(** What [complex_pow] of [complexobject.c] computes ([c_powi] or
    [_Py_c_pow], then [_Py_ADJUST_ERANGE2]): a value, a domain error or a
    range error. *)
Inductive cpow_answer : Type :=
| CPowVal (c : complex)
| CPowEDOM
| CPowERANGE.

(** The questions a computation asks its platform; the last one is
    [sys.get_int_max_str_digits()], the limit on the number of digits of
    an int that [str] converts: 4300 unless it has been set, 0 when there
    is no limit (as before CPython 3.11). *)
Inductive event : Type -> Type :=
| LibmPow (x y : float) : event pow_answer
| ComplexPow (a b : complex) : event cpow_answer
| Str (v : value) : event string
| IntMaxStrDigits : event Z.

(** A computation returns, raises, or asks the platform and goes on. *)
Inductive comp (A : Type) : Type :=
| Ret (a : A)
| Throw (e : exn)
| Vis (X : Type) (q : event X) (k : X -> comp A).

Arguments Ret {A} a.
Arguments Throw {A} e.
Arguments Vis {A X} q k.

Fixpoint bind {A B : Type} (m : comp A) (f : A -> comp B) : comp B :=
  match m with
  | Ret a => f a
  | Throw e => Throw e
  | Vis q k => Vis q (fun x => bind (k x) f)
  end.

Notation "x <- m ;; k" := (bind m (fun x => k))
  (at level 61, m at next level, right associativity).

(** [try: body / except Exception: handler]: every class of [exn] derives
    from [Exception]. *)
Fixpoint try_except {A : Type} (body : comp A) (handler : exn -> comp A) : comp A :=
  match body with
  | Ret a => Ret a
  | Throw e => handler e
  | Vis q k => Vis q (fun x => try_except (k x) handler)
  end.

(** A platform answers every question. *)
Definition platform : Type := forall X : Type, event X -> X.

(** The outcome of a computation on a platform. *)
Inductive result (A : Type) : Type :=
| Return (a : A)
| Raise (e : exn).

Arguments Return {A} a.
Arguments Raise {A} e.

Fixpoint run {A : Type} (P : platform) (m : comp A) : result A :=
  match m with
  | Ret a => Return a
  | Throw e => Raise e
  | Vis q k => run P (k (P _ q))
  end.

(** ** Floating-point helpers *)

Definition fadd : float -> float -> float := SFadd prec emax.
Definition fsub : float -> float -> float := SFsub prec emax.
Definition fmul : float -> float -> float := SFmul prec emax.
Definition fdiv : float -> float -> float := SFdiv prec emax.
Definition fneg : float -> float := SFopp.
Definition fabs : float -> float := SFabs.
Definition feqb : float -> float -> bool := SFeqb.
Definition fltb : float -> float -> bool := SFltb.
Definition fleb : float -> float -> bool := SFleb.

Definition float_zero : float := S754_zero false.
Definition float_one : float := S754_finite false 4503599627370496 (-52).
Definition float_two : float := S754_finite false 4503599627370496 (-51).

Definition isnan (x : float) : bool :=
  match x with S754_nan => true | _ => false end.

Definition isinf (x : float) : bool :=
  match x with S754_infinity _ => true | _ => false end.

Definition signbit (x : float) : bool :=
  match x with
  | S754_zero s | S754_infinity s | S754_finite s _ _ => s
  | S754_nan => false
  end.

(** [copysign(0.0, y)]. *)
Definition copysign_zero (y : float) : float := S754_zero (signbit y).

(** The nearest float of an integer (ties to even); infinite when the
    integer is out of range. *)
Definition float_of_Z (n : Z) : float := binary_normalize prec emax n 0 false.

(** The integer [n] as an unrounded operand of [SFdiv]. *)
Definition exact_of_Z (n : Z) : float :=
  match n with
  | Z0 => S754_zero false
  | Zpos p => S754_finite false p 0
  | Zneg p => S754_finite true p 0
  end.

(** [float.is_integer]: finite, and equal to its floor. *)
Definition float_is_integer (x : float) : bool :=
  match x with
  | S754_zero _ => true
  | S754_finite _ m e => (0 <=? e) || (Zpos m mod 2 ^ (- e) =? 0)
  | _ => false
  end.

(** The integer part of a finite float, towards zero. *)
Definition float_trunc (x : float) : Z :=
  match x with
  | S754_finite s m e => cond_Zopp s (Z.shiftl (Zpos m) e)
  | _ => 0
  end.

(** C's [fmod]: the exact remainder, with the sign of [x]. *)
Definition fmod (x y : float) : float :=
  match x, y with
  | S754_nan, _ | _, S754_nan => S754_nan
  | S754_infinity _, _ => S754_nan
  | _, S754_zero _ => S754_nan
  | _, S754_infinity _ => x
  | S754_zero _, _ => x
  | S754_finite sx mx ex, S754_finite _ my ey =>
      let e := Z.min ex ey in
      let r := Z.rem (Z.shiftl (Zpos mx) (ex - e)) (Z.shiftl (Zpos my) (ey - e)) in
      binary_normalize prec emax (cond_Zopp sx r) e sx
  end.

(** [DOUBLE_IS_ODD_INTEGER] of [floatobject.c]. *)
Definition DOUBLE_IS_ODD_INTEGER (x : float) : bool :=
  feqb (fmod (fabs x) float_two) float_one.

(** ** Python's numbers and their coercions *)

Inductive number : Type :=
| NInt (n : Z)
| NFloat (x : float)
| NComplex (c : complex).

(** [bool] is a subclass of [int]: in arithmetic [True] is 1. *)
Definition as_number (v : value) : option number :=
  match v with
  | VInt n => Some (NInt n)
  | VBool b => Some (NInt (Z.b2z b))
  | VFloat x => Some (NFloat x)
  | VComplex c => Some (NComplex c)
  | _ => None
  end.

(** [PyLong_AsDouble]: "int too large to convert to float". *)
Definition PyLong_AsDouble (n : Z) : comp float :=
  let x := float_of_Z n in
  if isinf x then Throw OverflowError else Ret x.

(** [CONVERT_TO_DOUBLE] of [floatobject.c]. *)
Definition CONVERT_TO_DOUBLE (a : number) : comp float :=
  match a with
  | NInt n => PyLong_AsDouble n
  | NFloat x => Ret x
  | NComplex _ => Throw TypeError
  end.

(** [TO_COMPLEX] of [complexobject.c]. *)
Definition TO_COMPLEX (a : number) : comp complex :=
  match a with
  | NInt n => x <- PyLong_AsDouble n;; Ret (Complex x float_zero)
  | NFloat x => Ret (Complex x float_zero)
  | NComplex c => Ret c
  end.

(** A binary operator on two numbers: on two ints the [int] slot; with a
    complex operand the [complex] slot, when the class has one (else
    [TypeError], before any conversion); otherwise the [float] slot. *)
Definition binary_op
    (long_op : Z -> Z -> comp value)
    (float_op : float -> float -> comp value)
    (complex_op : option (complex -> complex -> comp value))
    (v w : value) : comp value :=
  match as_number v, as_number w with
  | Some (NInt a), Some (NInt b) => long_op a b
  | Some (NComplex _ as a), Some b
  | Some a, Some (NComplex _ as b) =>
      match complex_op with
      | Some f => x <- TO_COMPLEX a;; y <- TO_COMPLEX b;; f x y
      | None => Throw TypeError
      end
  | Some a, Some b =>
      x <- CONVERT_TO_DOUBLE a;; y <- CONVERT_TO_DOUBLE b;; float_op x y
  | _, _ => Throw TypeError
  end.

(** ** [complexobject.c] *)

Definition _Py_c_sum (a b : complex) : complex :=
  Complex (fadd (real a) (real b)) (fadd (imag a) (imag b)).

Definition _Py_c_diff (a b : complex) : complex :=
  Complex (fsub (real a) (real b)) (fsub (imag a) (imag b)).

Definition _Py_c_neg (a : complex) : complex :=
  Complex (fneg (real a)) (fneg (imag a)).

Definition _Py_c_prod (a b : complex) : complex :=
  Complex (fsub (fmul (real a) (real b)) (fmul (imag a) (imag b)))
          (fadd (fmul (real a) (imag b)) (fmul (imag a) (real b))).

(** [_Py_c_quot]; [None] stands for [errno = EDOM]. *)
Definition _Py_c_quot (a b : complex) : option complex :=
  let abs_breal := fabs (real b) in
  let abs_bimag := fabs (imag b) in
  if fleb abs_bimag abs_breal then
    if feqb abs_breal float_zero then None
    else
      let ratio := fdiv (imag b) (real b) in
      let denom := fadd (real b) (fmul (imag b) ratio) in
      Some (Complex (fdiv (fadd (real a) (fmul (imag a) ratio)) denom)
                    (fdiv (fsub (imag a) (fmul (real a) ratio)) denom))
  else if fleb abs_breal abs_bimag then
    let ratio := fdiv (real b) (imag b) in
    let denom := fadd (fmul (real b) ratio) (imag b) in
    Some (Complex (fdiv (fadd (fmul (real a) ratio) (imag a)) denom)
                  (fdiv (fsub (fmul (imag a) ratio) (real a)) denom))
  else Some (Complex S754_nan S754_nan).

Definition complex_div (a b : complex) : comp value :=
  match _Py_c_quot a b with
  | Some q => Ret (VComplex q)
  | None => Throw ZeroDivisionError
  end.

(** [complex_pow]: "0.0 to a negative or complex power" on a domain
    error, "complex exponentiation" on a range error. *)
Definition complex_pow (a b : complex) : comp value :=
  Vis (ComplexPow a b) (fun r =>
    match r with
    | CPowVal p =>
        if isinf (real p) || isinf (imag p) then Throw OverflowError
        else Ret (VComplex p)
    | CPowEDOM => Throw ZeroDivisionError
    | CPowERANGE => Throw OverflowError
    end).

(** ** [floatobject.c] *)

Definition float_div (a b : float) : comp value :=
  if feqb b float_zero then Throw ZeroDivisionError
  else Ret (VFloat (fdiv a b)).

(** [float_rem]: the remainder takes the sign of the divisor. *)
Definition float_rem (vx wx : float) : comp value :=
  if feqb wx float_zero then Throw ZeroDivisionError
  else
    let mod_ := fmod vx wx in
    if negb (feqb mod_ float_zero) then
      if xorb (fltb wx float_zero) (fltb mod_ float_zero)
      then Ret (VFloat (fadd mod_ wx))
      else Ret (VFloat mod_)
    else Ret (VFloat (copysign_zero wx)).

(** [float_pow], case by case as the C source sorts them out before it
    asks the C library. *)
Definition float_pow (iv iw : float) : comp value :=
  if feqb iw float_zero then Ret (VFloat float_one)
  else if isnan iv then Ret (VFloat iv)
  else if isnan iw then Ret (VFloat (if feqb iv float_one then float_one else iw))
  else if isinf iw then
    let iv := fabs iv in
    if feqb iv float_one then Ret (VFloat float_one)
    else if Bool.eqb (fltb float_zero iw) (fltb float_one iv)
         then Ret (VFloat (fabs iw))
         else Ret (VFloat float_zero)
  else if isinf iv then
    let iw_is_odd := DOUBLE_IS_ODD_INTEGER iw in
    if fltb float_zero iw
    then Ret (VFloat (if iw_is_odd then iv else fabs iv))
    else Ret (VFloat (if iw_is_odd then copysign_zero iv else float_zero))
  else if feqb iv float_zero then
    let iw_is_odd := DOUBLE_IS_ODD_INTEGER iw in
    if fltb iw float_zero then Throw ZeroDivisionError
    else Ret (VFloat (if iw_is_odd then iv else float_zero))
  else if fltb iv float_zero && negb (float_is_integer iw) then
    (* negative numbers raised to fractional powers become complex *)
    complex_pow (Complex iv float_zero) (Complex iw float_zero)
  else
    let negate_result := fltb iv float_zero && DOUBLE_IS_ODD_INTEGER iw in
    let iv := fabs iv in
    if feqb iv float_one
    then Ret (VFloat (if negate_result then fneg float_one else float_one))
    else
      Vis (LibmPow iv iw) (fun r =>
        match r with
        | PowVal ix =>
            if isinf ix then Throw OverflowError
            else Ret (VFloat (if negate_result then fneg ix else ix))
        | PowERANGE => Throw OverflowError
        end).

(** ** [longobject.c] *)

(** [long_true_divide]: the correctly rounded quotient, "integer division
    result too large for a float" when it is out of range. *)
Definition long_true_divide (a b : Z) : comp value :=
  if b =? 0 then Throw ZeroDivisionError
  else if a =? 0 then Ret (VFloat (S754_zero (b <? 0)))
  else
    let q := fdiv (exact_of_Z a) (exact_of_Z b) in
    if isinf q then Throw OverflowError else Ret (VFloat q).

(** [long_mod]: the remainder takes the sign of the divisor, as [Z.modulo]. *)
Definition long_mod (a b : Z) : comp value :=
  if b =? 0 then Throw ZeroDivisionError else Ret (VInt (a mod b)).

(** [long_pow]: a negative exponent goes to [float_pow]. *)
Definition long_pow (a b : Z) : comp value :=
  if b <? 0 then
    x <- PyLong_AsDouble a;; y <- PyLong_AsDouble b;; float_pow x y
  else Ret (VInt (a ^ b)).

(** ** The functions of the [operator] module that the table names

    They are only ever applied to numbers (lemma [_eval_number]); on any
    other object they are set to raise [TypeError]. *)

Definition op_add : value -> value -> comp value :=
  binary_op (fun a b => Ret (VInt (a + b)))
            (fun x y => Ret (VFloat (fadd x y)))
            (Some (fun a b => Ret (VComplex (_Py_c_sum a b)))).

Definition op_sub : value -> value -> comp value :=
  binary_op (fun a b => Ret (VInt (a - b)))
            (fun x y => Ret (VFloat (fsub x y)))
            (Some (fun a b => Ret (VComplex (_Py_c_diff a b)))).

Definition op_mul : value -> value -> comp value :=
  binary_op (fun a b => Ret (VInt (a * b)))
            (fun x y => Ret (VFloat (fmul x y)))
            (Some (fun a b => Ret (VComplex (_Py_c_prod a b)))).

Definition op_truediv : value -> value -> comp value :=
  binary_op long_true_divide float_div (Some complex_div).

(** [complex] has no [%]. *)
Definition op_mod : value -> value -> comp value :=
  binary_op long_mod float_rem None.

Definition op_pow : value -> value -> comp value :=
  binary_op long_pow float_pow (Some complex_pow).

Definition op_neg (v : value) : comp value :=
  match as_number v with
  | Some (NInt n) => Ret (VInt (- n))
  | Some (NFloat x) => Ret (VFloat (fneg x))
  | Some (NComplex c) => Ret (VComplex (_Py_c_neg c))
  | None => Throw TypeError
  end.

Definition op_pos (v : value) : comp value :=
  match as_number v with
  | Some (NInt n) => Ret (VInt n)
  | Some (NFloat x) => Ret (VFloat x)
  | Some (NComplex c) => Ret (VComplex c)
  | None => Throw TypeError
  end.

(** [int(x)] of a float ([float.__trunc__]). *)
Definition float___trunc__ (x : float) : comp value :=
  match x with
  | S754_nan => Throw (ValueError "cannot convert float NaN to integer")
  | S754_infinity _ => Throw OverflowError
  | _ => Ret (VInt (float_trunc x))
  end.

(** ** Strings *)

(** [s.replace(old, new)] for a one-character [old]. *)
Fixpoint replace (old : ascii) (new : string) (s : string) : string :=
  match s with
  | EmptyString => EmptyString
  | String c s' =>
      if Ascii.eqb c old then new ++ replace old new s'
      else String c (replace old new s')
  end.

(** [str.isspace] on the code points below 256. *)
Definition isspace (c : ascii) : bool :=
  let n := N_of_ascii c in
  (((9 <=? n) && (n <=? 13)) || ((28 <=? n) && (n <=? 32))
   || (n =? 133) || (n =? 160))%N.

Fixpoint lstrip (s : string) : string :=
  match s with
  | EmptyString => EmptyString
  | String c s' => if isspace c then lstrip s' else s
  end.

Fixpoint rstrip (s : string) : string :=
  match s with
  | EmptyString => EmptyString
  | String c s' =>
      match rstrip s' with
      | EmptyString => if isspace c then EmptyString else String c EmptyString
      | r => String c r
      end
  end.

(** [s.strip()]. *)
Definition strip (s : string) : string := rstrip (lstrip s).

(** [s[:-1]]. *)
Fixpoint but_last (s : string) : string :=
  match s with
  | EmptyString => EmptyString
  | String c EmptyString => EmptyString
  | String c s' => String c (but_last s')
  end.

(** ** The syntax tree of the [ast] module *)

Inductive operator : Type :=
| Add | Sub | Mult | MatMult | Div | Mod | Pow
| LShift | RShift | BitOr | BitXor | BitAnd | FloorDiv.

Inductive unaryop : Type :=
| Invert | Not | UAdd | USub.

(** The nodes: the classes [_eval] tests for, those the claims name, and
    [OtherNode] for every other class of [ast], by its name. *)
Inductive AST : Type :=
| Expression (body : AST)
| BinOp (left : AST) (op : operator) (right : AST)
| UnaryOp (op : unaryop) (operand : AST)
| Constant (v : value)
| Call (func : AST) (args : list AST) (keywords : list (option string * AST))
| Name (id : string)
| Attribute (obj : AST) (attr : string)
| Starred (obj : AST)
| Tuple (elts : list AST)
| OtherNode (cls : string).

(** [type(node.op)]: the class of an operator object. *)
Inductive op_type : Type :=
| operator_type (o : operator)
| unaryop_type (u : unaryop).

Definition operator_name (o : operator) : string :=
  match o with
  | Add => "Add" | Sub => "Sub" | Mult => "Mult" | MatMult => "MatMult"
  | Div => "Div" | Mod => "Mod" | Pow => "Pow" | LShift => "LShift"
  | RShift => "RShift" | BitOr => "BitOr" | BitXor => "BitXor"
  | BitAnd => "BitAnd" | FloorDiv => "FloorDiv"
  end.

Definition unaryop_name (u : unaryop) : string :=
  match u with
  | Invert => "Invert" | Not => "Not" | UAdd => "UAdd" | USub => "USub"
  end.

Definition op_type_name (t : op_type) : string :=
  match t with
  | operator_type o => operator_name o
  | unaryop_type u => unaryop_name u
  end.

Definition class_name (node : AST) : string :=
  match node with
  | Expression _ => "Expression"
  | BinOp _ _ _ => "BinOp"
  | UnaryOp _ _ => "UnaryOp"
  | Constant _ => "Constant"
  | Call _ _ _ => "Call"
  | Name _ => "Name"
  | Attribute _ _ => "Attribute"
  | Starred _ => "Starred"
  | Tuple _ => "Tuple"
  | OtherNode cls => cls
  end.

(** How an f-string prints a class of [ast]. *)
Definition repr_class (name : string) : string :=
  "<class 'ast." ++ name ++ "'>".

(** ** The whitelist *)

(** A function of the [operator] module, by its arity. *)
Inductive builtin : Type :=
| binary (f : value -> value -> comp value)
| unary (f : value -> comp value).

Scheme Equality for operator.
Scheme Equality for unaryop.
Scheme Equality for op_type.

Definition _ALLOWED_OPERATORS : list (op_type * builtin) :=
  [ (operator_type Add, binary op_add);
    (operator_type Sub, binary op_sub);
    (operator_type Mult, binary op_mul);
    (operator_type Div, binary op_truediv);
    (operator_type Mod, binary op_mod);
    (operator_type Pow, binary op_pow);
    (unaryop_type USub, unary op_neg);
    (unaryop_type UAdd, unary op_pos) ].

(** [d[k]] where [k in d], as an option. *)
Fixpoint lookup (d : list (op_type * builtin)) (k : op_type) : option builtin :=
  match d with
  | [] => None
  | (k', f) :: d' => if op_type_beq k' k then Some f else lookup d' k
  end.

(** [f(a, b)] and [f(a)]: a call with the wrong number of arguments is a
    [TypeError]. *)
Definition call2 (f : builtin) (a b : value) : comp value :=
  match f with
  | binary g => g a b
  | unary _ => Throw TypeError
  end.

Definition call1 (f : builtin) (a : value) : comp value :=
  match f with
  | unary g => g a
  | binary _ => Throw TypeError
  end.

(** ** The evaluator *)

(** [isinstance(node, ast.Num)]. *)
Definition isinstance_Num (node : AST) : bool :=
  match node with
  | Constant (VInt _ | VFloat _ | VComplex _) => true
  | _ => false
  end.

(** [isinstance(v, (int, float))]: [bool] derives from [int]. *)
Definition isinstance_int_float (v : value) : bool :=
  match v with
  | VInt _ | VBool _ | VFloat _ => true
  | _ => false
  end.

Fixpoint _eval (node : AST) : comp value :=
  match node with
  | Expression body => _eval body
  | BinOp node_left op node_right =>
      left_ <- _eval node_left;;
      right_ <- _eval node_right;;
      let op_type := operator_type op in
      match lookup _ALLOWED_OPERATORS op_type with
      | Some f => call2 f left_ right_
      | None =>
          Throw (ValueError ("Unsupported binary operator: "
                             ++ repr_class (op_type_name op_type)))
      end
  | UnaryOp op node_operand =>
      operand <- _eval node_operand;;
      let op_type := unaryop_type op in
      match lookup _ALLOWED_OPERATORS op_type with
      | Some f => call1 f operand
      | None =>
          Throw (ValueError ("Unsupported unary operator: "
                             ++ repr_class (op_type_name op_type)))
      end
  | Constant v =>
      if isinstance_Num node then Ret v
      else if isinstance_int_float v then Ret v
      else Throw (ValueError "Constants other than numbers not allowed")
  | Call _ _ _ => Throw (ValueError "Function calls not allowed")
  | _ => Throw (ValueError ("Unsupported expression: "
                            ++ repr_class (class_name node)))
  end.

(** The last lines of [safe_eval]: results like 5.0 become 5. *)
Definition display (result : value) : comp value :=
  match result with
  | VFloat x => if float_is_integer x then float___trunc__ x else Ret result
  | _ => Ret result
  end.

Section SafeEval.

(** [ast.parse(expr, mode='eval')]; [None] stands for [SyntaxError] and
    its subclasses, the exceptions the handler of [safe_eval] catches.
    An exception of another class ([ast.parse] raises [ValueError] on a
    string that holds a null character) leaves [safe_eval] as it is and
    has no counterpart here: what is proved of [safe_eval] holds where
    [ast.parse] returns a tree or raises [SyntaxError]. *)
Variable parse : string -> option AST.

Definition safe_eval (expr : string) : comp value :=
  let expr := replace "^" "**" expr in
  match parse expr with
  | None => Throw (ValueError "Syntax error")
  | Some node => result <- _eval node;; display result
  end.

End SafeEval.

(** ** [str] *)

(** [str(n)] of an int. *)
Definition str_int (n : Z) : string := NilZero.string_of_int (Z.to_int n).

(** The number of decimal digits of [n]. *)
Definition decimal_digits (n : Z) : Z :=
  Z.of_nat (String.length (str_int (Z.abs n))).

(** [long_to_decimal_string] of [longobject.c]: a text of more than 640
    characters is checked against the limit of the interpreter, by the
    number of its digits. *)
Definition long_to_decimal_string (n : Z) : comp string :=
  Vis IntMaxStrDigits (fun max_str_digits =>
    if (640 <? decimal_digits n + (if n <? 0 then 1 else 0))
       && (0 <? max_str_digits) && (max_str_digits <? decimal_digits n)
    then Throw (ValueError
                  ("Exceeds the limit (" ++ str_int max_str_digits
                   ++ " digits) for integer string conversion; "
                   ++ "use sys.set_int_max_str_digits() to increase the limit"))
    else Ret (str_int n)).

(** [str(v)]: computed here for an int, a bool and a float that is not
    finite; asked of the platform otherwise. *)
Definition str (v : value) : comp string :=
  match v with
  | VInt n => long_to_decimal_string n
  | VBool b => Ret (if b then "True" else "False")
  | VFloat S754_nan => Ret "nan"
  | VFloat (S754_infinity s) => Ret (if s then "-inf" else "inf")
  | _ => Vis (Str v) (fun s => Ret s)
  end.

(** ** The window *)

Module Calculator.

(** The state of the window that the handlers touch: the text of the
    [tk.StringVar] behind the display. *)
Record t : Type := { _expr : string }.

Definition _append (self : t) (char : string) : t :=
  {| _expr := _expr self ++ char |}.

Definition clear (self : t) : t := {| _expr := EmptyString |}.

Definition backspace (self : t) : t :=
  {| _expr := but_last (_expr self) |}.

Section Evaluate.

Variable parse : string -> option AST.

(** The handler of the [=] button and of the Enter keys. *)
Definition evaluate (self : t) : comp t :=
  let expr := strip (_expr self) in
  if String.eqb expr EmptyString then Ret self
  else
    try_except
      (res <- safe_eval parse expr;;
       text <- str res;;
       Ret {| _expr := text |})
      (fun e => Ret {| _expr := "Error" |}).

End Evaluate.

(** [__init__] starts the window with an empty display. *)
Definition __init__ : t := {| _expr := EmptyString |}.

(** The callbacks the window hands to Tk: [lambda: self._append(c)],
    [self.clear], [self.backspace] and [self.evaluate]. *)
Inductive command : Type :=
| Append (char : string)
| Clear
| Backspace
| Evaluate.

(** An entry of [btns]: the label, the row, the column, the callback, and
    the items the tuple holds after these four. *)
Record item : Type :=
  { text : string; row : Z; column : Z; cmd : command; rest : list Z }.

(** The label of the backspace button, U+232B, in UTF-8. *)
Definition erase_to_the_left : string :=
  String "226" (String "140" (String "171" EmptyString)).

Definition btns : list item :=
  [ {| text := "C"; row := 1; column := 0; cmd := Clear; rest := [] |};
    {| text := erase_to_the_left; row := 1; column := 1; cmd := Backspace;
       rest := [] |};
    {| text := "%"; row := 1; column := 2; cmd := Append "%"; rest := [] |};
    {| text := "/"; row := 1; column := 3; cmd := Append "/"; rest := [] |};

    {| text := "7"; row := 2; column := 0; cmd := Append "7"; rest := [] |};
    {| text := "8"; row := 2; column := 1; cmd := Append "8"; rest := [] |};
    {| text := "9"; row := 2; column := 2; cmd := Append "9"; rest := [] |};
    {| text := "*"; row := 2; column := 3; cmd := Append "*"; rest := [] |};

    {| text := "4"; row := 3; column := 0; cmd := Append "4"; rest := [] |};
    {| text := "5"; row := 3; column := 1; cmd := Append "5"; rest := [] |};
    {| text := "6"; row := 3; column := 2; cmd := Append "6"; rest := [] |};
    {| text := "-"; row := 3; column := 3; cmd := Append "-"; rest := [] |};

    {| text := "1"; row := 4; column := 0; cmd := Append "1"; rest := [] |};
    {| text := "2"; row := 4; column := 1; cmd := Append "2"; rest := [] |};
    {| text := "3"; row := 4; column := 2; cmd := Append "3"; rest := [] |};
    {| text := "+"; row := 4; column := 3; cmd := Append "+"; rest := [] |};

    {| text := "("; row := 5; column := 0; cmd := Append "("; rest := [] |};
    {| text := "0"; row := 5; column := 1; cmd := Append "0"; rest := [] |};
    {| text := "."; row := 5; column := 2; cmd := Append "."; rest := [] |};
    {| text := ")"; row := 5; column := 3; cmd := Append ")"; rest := [] |};

    {| text := "^"; row := 6; column := 0; cmd := Append "^"; rest := [] |};
    {| text := "="; row := 6; column := 1; cmd := Evaluate; rest := [3] |} ].

(** The comprehension of the first loop of [_create_buttons]:
    [(t,r,c,cb,1) if len(tpl:=t) else None]. *)
Definition readable (it : item) : option (string * Z * Z * command * Z) :=
  if (String.length (text it) =? 0)%nat then None
  else Some (text it, row it, column it, cmd it, 1).

(** [for (text, r, c, cmd, colspan) in rows: pass]: unpacking [None] is a
    [TypeError]. *)
Fixpoint unpack_each (rows : list (option (string * Z * Z * command * Z)))
    : comp unit :=
  match rows with
  | [] => Ret tt
  | Some _ :: rows' => unpack_each rows'
  | None :: _ => Throw TypeError
  end.

(** [item[4] if len(item) > 4 else 1]. *)
Definition colspan (it : item) : Z :=
  match rest it with
  | c :: _ => c
  | [] => 1
  end.

(** A button on the grid: its label, its callback, its row, its column
    and the number of columns it spans. *)
Record button : Type :=
  { label : string; callback : command;
    grid_row : Z; grid_column : Z; grid_columnspan : Z }.

(** [_create_buttons]: the first loop, then one button per entry;
    [items] stands for the list [btns] of the method, which the window is
    built from.  Tk's own calls are taken to succeed. *)
Definition _create_buttons (items : list item) : comp (list button) :=
  _ <- unpack_each (map readable items);;
  Ret (map (fun it => {| label := text it; callback := cmd it;
                         grid_row := row it; grid_column := column it;
                         grid_columnspan := colspan it |}) items).

(** The cells a button covers. *)
Definition cells (b : button) : list (Z * Z) :=
  map (fun i => (grid_row b, grid_column b + Z.of_nat i))
      (seq 0%nat (Z.to_nat (grid_columnspan b))).

(** The characters [_bind_keys] binds to [_append]. *)
Definition bound_keys : string := "0123456789+-*/().%^".

(** [_bind_keys]: the event sequences and their callbacks, in the order
    they are bound. *)
Definition _bind_keys : list (string * command) :=
  map (fun key => (String key EmptyString, Append (String key EmptyString)))
      (list_ascii_of_string bound_keys)
  ++ [ ("<Return>", Evaluate);
       ("<KP_Enter>", Evaluate);
       ("<BackSpace>", Backspace);
       ("<Delete>", Clear) ].

(** The callback bound to an event sequence, if any: a later [bind] of
    the same sequence replaces an earlier one. *)
Fixpoint binding (bindings : list (string * command)) (sequence : string)
    : option command :=
  match bindings with
  | [] => None
  | (s, c) :: bindings' =>
      match binding bindings' sequence with
      | Some c' => Some c'
      | None => if String.eqb s sequence then Some c else None
      end
  end.

Section Events.

Variable parse : string -> option AST.

(** Tk calls a callback. *)
Definition invoke (c : command) (self : t) : comp t :=
  match c with
  | Append char => Ret (_append self char)
  | Clear => Ret (clear self)
  | Backspace => Ret (backspace self)
  | Evaluate => evaluate parse self
  end.

(** A key event: the callback bound to it runs; an unbound key does
    nothing. *)
Definition key_press (sequence : string) (self : t) : comp t :=
  match binding _bind_keys sequence with
  | Some c => invoke c self
  | None => Ret self
  end.

(** Key events, one after the other. *)
Fixpoint key_presses (sequences : list string) (self : t) : comp t :=
  match sequences with
  | [] => Ret self
  | s :: sequences' =>
      self' <- key_press s self;; key_presses sequences' self'
  end.

End Events.

End Calculator.

(** ** A reference parser

    [ast_parse] follows Python's tokenizer and expression grammar on the
    strings made of the calculator's keys ([0123456789+-*/().%]), of
    identifiers and of plain string literals.  It is exact on the strings
    in which no number touches a letter or an underscore (no exponent,
    suffix or prefix), no number has more digits than the interpreter
    converts (4300 unless the limit has been set), no identifier is a
    keyword other than [True], [False] and [None], no identifier touches
    a quote, and no string literal holds a backslash, a line break or
    three quotes in a row.  On any other string, and on a string that
    holds whitespace or any other character, its answer says nothing of
    Python. *)

Inductive token : Type :=
| NUMBER (intpart : uint) (fraction : option uint)
| NAME (id : string)
| STRING (s : string)
| PLUS | MINUS | STAR | DOUBLESTAR | SLASH | DOUBLESLASH | PERCENT
| LPAR | RPAR | DOT | ELLIPSIS.

Definition digit (c : ascii) : option (uint -> uint) :=
  match c with
  | "0" => Some D0 | "1" => Some D1 | "2" => Some D2 | "3" => Some D3
  | "4" => Some D4 | "5" => Some D5 | "6" => Some D6 | "7" => Some D7
  | "8" => Some D8 | "9" => Some D9
  | _ => None
  end%char.

Definition isdigit (c : ascii) : bool :=
  match digit c with Some _ => true | None => false end.

(** The longest run of digits at the head of [s], and what follows. *)
Fixpoint scan_digits (s : string) : uint * string :=
  match s with
  | EmptyString => (Nil, EmptyString)
  | String c s' =>
      match digit c with
      | Some d => let (ds, rest) := scan_digits s' in (d ds, rest)
      | None => (Nil, s)
      end
  end.

Definition is_name_start (c : ascii) : bool :=
  let n := N_of_ascii c in
  (((65 <=? n) && (n <=? 90)) || ((97 <=? n) && (n <=? 122)) || (n =? 95))%N.

Definition is_name_char (c : ascii) : bool := is_name_start c || isdigit c.

Fixpoint scan_name (s : string) : string * string :=
  match s with
  | EmptyString => (EmptyString, EmptyString)
  | String c s' =>
      if is_name_char c
      then let (id, rest) := scan_name s' in (String c id, rest)
      else (EmptyString, s)
  end.

Definition is_quote (c : ascii) : bool :=
  (Ascii.eqb c "'" || Ascii.eqb c "034")%char.

(** The body of a string literal opened by [q], and what follows its
    closing quote. *)
Fixpoint scan_string (q : ascii) (s : string) : option (string * string) :=
  match s with
  | EmptyString => None
  | String c s' =>
      if Ascii.eqb c q then Some (EmptyString, s')
      else if (Ascii.eqb c "\" || Ascii.eqb c "010" || Ascii.eqb c "013")%char
      then None
      else
        match scan_string q s' with
        | Some (body, rest) => Some (String c body, rest)
        | None => None
        end
  end.

Definition starts_with (p : ascii -> bool) (s : string) : bool :=
  match s with
  | String c _ => p c
  | EmptyString => false
  end.

(** "leading zeros in decimal integer literals are not permitted": the
    digits are neither normal nor all zeros. *)
Definition leading_zeros (d : uint) : bool :=
  negb (uint_beq (unorm d) d) && negb (uint_beq (nzhead d) Nil).

Fixpoint tokenize (fuel : nat) (s : string) : option (list token) :=
  match s with
  | EmptyString => Some []
  | String c s' =>
      match fuel with
      | O => None
      | S fuel =>
          let emit (tok : token) (rest : string) :=
            option_map (cons tok) (tokenize fuel rest) in
          if isdigit c then
            let (ip, r1) := scan_digits s in
            match r1 with
            | String "."%char r2 =>
                let (fp, r3) := scan_digits r2 in
                if starts_with is_name_start r3 then None
                else emit (NUMBER ip (Some fp)) r3
            | _ =>
                if starts_with is_name_start r1 || leading_zeros ip then None
                else emit (NUMBER ip None) r1
            end
          else if Ascii.eqb c "."%char then
            if starts_with isdigit s' then
              let (fp, r) := scan_digits s' in
              if starts_with is_name_start r then None
              else emit (NUMBER Nil (Some fp)) r
            else
              match s' with
              | String "."%char (String "."%char r) => emit ELLIPSIS r
              | _ => emit DOT s'
              end
          else if Ascii.eqb c "+"%char then emit PLUS s'
          else if Ascii.eqb c "-"%char then emit MINUS s'
          else if Ascii.eqb c "%"%char then emit PERCENT s'
          else if Ascii.eqb c "("%char then emit LPAR s'
          else if Ascii.eqb c ")"%char then emit RPAR s'
          else if Ascii.eqb c "*"%char then
            match s' with
            | String "*"%char r => emit DOUBLESTAR r
            | _ => emit STAR s'
            end
          else if Ascii.eqb c "/"%char then
            match s' with
            | String "/"%char r => emit DOUBLESLASH r
            | _ => emit SLASH s'
            end
          else if is_quote c then
            match scan_string c s' with
            | Some (body, rest) =>
                if String.eqb body "" && starts_with (Ascii.eqb c) rest
                then None
                else emit (STRING body) rest
            | None => None
            end
          else if is_name_start c then
            let (id, rest) := scan_name s in
            if starts_with is_quote rest then None
            else emit (NAME id) rest
          else None
      end
  end.

(** The value of an integer literal. *)
Definition int_literal (d : uint) : value := VInt (Z.of_uint d).

(** The value of a literal with a point: the float nearest to the
    decimal it writes. *)
Definition float_literal (ip fp : uint) : value :=
  VFloat (fdiv (exact_of_Z (Z.of_uint (app ip fp)))
               (exact_of_Z (10 ^ Z.of_nat (nb_digits fp)))).

Definition keywords : list string :=
  [ "False"; "None"; "True"; "and"; "as"; "assert"; "async"; "await";
    "break"; "class"; "continue"; "def"; "del"; "elif"; "else"; "except";
    "finally"; "for"; "from"; "global"; "if"; "import"; "in"; "is";
    "lambda"; "nonlocal"; "not"; "or"; "pass"; "raise"; "return"; "try";
    "while"; "with"; "yield" ].

Definition is_keyword (id : string) : bool := existsb (String.eqb id) keywords.

(** An identifier in the place of an atom. *)
Definition name_atom (id : string) : option AST :=
  if String.eqb id "True" then Some (Constant (VBool true))
  else if String.eqb id "False" then Some (Constant (VBool false))
  else if String.eqb id "None" then Some (Constant VNone)
  else if is_keyword id then None
  else Some (Name id).

(** Adjacent string literals make one constant. *)
Fixpoint strings (ts : list token) : string * list token :=
  match ts with
  | STRING s :: ts' => let (s', rest) := strings ts' in (s ++ s', rest)
  | _ => (EmptyString, ts)
  end.

Definition expect_rpar {A : Type} (f : AST -> A) (r : option (AST * list token))
    : option (A * list token) :=
  match r with
  | Some (e, RPAR :: ts) => Some (f e, ts)
  | _ => None
  end.

(** The expression grammar, one function per rule:
    [sum: sum ('+'|'-') term | term],
    [term: term ('*'|'/'|'//'|'%') factor | factor],
    [factor: ('+'|'-') factor | power],
    [power: primary ['**' factor]],
    [primary: primary '.' NAME | primary '(' [argument] ')' | atom],
    [atom: NAME | NUMBER | STRING+ | '...' | '(' ')' | '(' sum ')']. *)
Fixpoint rule_sum (fuel : nat) (ts : list token) {struct fuel}
    : option (AST * list token) :=
  match fuel with
  | O => None
  | S fuel =>
      match rule_term fuel ts with
      | Some (e, ts') => rule_sum_rest fuel e ts'
      | None => None
      end
  end
with rule_sum_rest (fuel : nat) (e : AST) (ts : list token) {struct fuel}
    : option (AST * list token) :=
  match fuel with
  | O => None
  | S fuel =>
      match ts with
      | PLUS :: ts1 =>
          match rule_term fuel ts1 with
          | Some (e', ts2) => rule_sum_rest fuel (BinOp e Add e') ts2
          | None => None
          end
      | MINUS :: ts1 =>
          match rule_term fuel ts1 with
          | Some (e', ts2) => rule_sum_rest fuel (BinOp e Sub e') ts2
          | None => None
          end
      | _ => Some (e, ts)
      end
  end
with rule_term (fuel : nat) (ts : list token) {struct fuel}
    : option (AST * list token) :=
  match fuel with
  | O => None
  | S fuel =>
      match rule_factor fuel ts with
      | Some (e, ts') => rule_term_rest fuel e ts'
      | None => None
      end
  end
with rule_term_rest (fuel : nat) (e : AST) (ts : list token) {struct fuel}
    : option (AST * list token) :=
  match fuel with
  | O => None
  | S fuel =>
      let next (op : operator) (ts1 : list token) :=
        match rule_factor fuel ts1 with
        | Some (e', ts2) => rule_term_rest fuel (BinOp e op e') ts2
        | None => None
        end in
      match ts with
      | STAR :: ts1 => next Mult ts1
      | SLASH :: ts1 => next Div ts1
      | DOUBLESLASH :: ts1 => next FloorDiv ts1
      | PERCENT :: ts1 => next Mod ts1
      | _ => Some (e, ts)
      end
  end
with rule_factor (fuel : nat) (ts : list token) {struct fuel}
    : option (AST * list token) :=
  match fuel with
  | O => None
  | S fuel =>
      match ts with
      | PLUS :: ts1 =>
          match rule_factor fuel ts1 with
          | Some (e, ts2) => Some (UnaryOp UAdd e, ts2)
          | None => None
          end
      | MINUS :: ts1 =>
          match rule_factor fuel ts1 with
          | Some (e, ts2) => Some (UnaryOp USub e, ts2)
          | None => None
          end
      | _ => rule_power fuel ts
      end
  end
with rule_power (fuel : nat) (ts : list token) {struct fuel}
    : option (AST * list token) :=
  match fuel with
  | O => None
  | S fuel =>
      match rule_primary fuel ts with
      | Some (e, DOUBLESTAR :: ts1) =>
          match rule_factor fuel ts1 with
          | Some (e', ts2) => Some (BinOp e Pow e', ts2)
          | None => None
          end
      | r => r
      end
  end
with rule_primary (fuel : nat) (ts : list token) {struct fuel}
    : option (AST * list token) :=
  match fuel with
  | O => None
  | S fuel =>
      match rule_atom fuel ts with
      | Some (e, ts') => rule_trailers fuel e ts'
      | None => None
      end
  end
with rule_trailers (fuel : nat) (e : AST) (ts : list token) {struct fuel}
    : option (AST * list token) :=
  match fuel with
  | O => None
  | S fuel =>
      let next (r : option (AST * list token)) :=
        match r with
        | Some (e', ts') => rule_trailers fuel e' ts'
        | None => None
        end in
      match ts with
      | DOT :: NAME id :: ts1 =>
          if is_keyword id then None else rule_trailers fuel (Attribute e id) ts1
      | LPAR :: RPAR :: ts1 => rule_trailers fuel (Call e [] []) ts1
      | LPAR :: STAR :: ts1 =>
          next (expect_rpar (fun a => Call e [Starred a] []) (rule_sum fuel ts1))
      | LPAR :: DOUBLESTAR :: ts1 =>
          next (expect_rpar (fun a => Call e [] [(None, a)]) (rule_sum fuel ts1))
      | LPAR :: ts1 =>
          next (expect_rpar (fun a => Call e [a] []) (rule_sum fuel ts1))
      | _ => Some (e, ts)
      end
  end
with rule_atom (fuel : nat) (ts : list token) {struct fuel}
    : option (AST * list token) :=
  match fuel with
  | O => None
  | S fuel =>
      match ts with
      | NUMBER ip None :: ts1 => Some (Constant (int_literal ip), ts1)
      | NUMBER ip (Some fp) :: ts1 => Some (Constant (float_literal ip fp), ts1)
      | NAME id :: ts1 =>
          match name_atom id with
          | Some e => Some (e, ts1)
          | None => None
          end
      | STRING _ :: _ =>
          let (s, ts1) := strings ts in Some (Constant (VStr s), ts1)
      | ELLIPSIS :: ts1 => Some (Constant VEllipsis, ts1)
      | LPAR :: RPAR :: ts1 => Some (Tuple [], ts1)
      | LPAR :: ts1 => expect_rpar (fun e => e) (rule_sum fuel ts1)
      | _ => None
      end
  end.

(** [ast.parse(s, mode='eval')] on the strings described above: the whole
    input is one expression. *)
Definition ast_parse (s : string) : option AST :=
  match tokenize (String.length s) s with
  | Some ts =>
      match rule_sum (8 * List.length ts + 8) ts with
      | Some (body, []) => Some (Expression body)
      | _ => None
      end
  | None => None
  end.

(** ** The vocabulary of the specification *)

(** The five kinds of failure the specification names. *)
Inductive failure : Type :=
| SyntaxRejected
| UnsupportedLiteral
| UnsupportedOperator
| DisallowedConstruct
| ArithmeticFailure.

(** The kind of an exception, by the [raise] statement of [main.py] that
    words it or, for the arithmetic errors, by its class. *)
Definition failure_of (e : exn) : option failure :=
  match e with
  | ValueError msg =>
      if String.eqb msg "Syntax error" then Some SyntaxRejected
      else if String.eqb msg "Constants other than numbers not allowed"
      then Some UnsupportedLiteral
      else if prefix "Unsupported binary operator: " msg
              || prefix "Unsupported unary operator: " msg
      then Some UnsupportedOperator
      else if String.eqb msg "Function calls not allowed"
              || prefix "Unsupported expression: " msg
      then Some DisallowedConstruct
      else None
  | ZeroDivisionError | OverflowError => Some ArithmeticFailure
  | TypeError => None
  end.

(** A Python number: an int, a bool, a float or a complex. *)
Definition is_number (v : value) : bool :=
  match as_number v with Some _ => true | None => false end.

Definition is_complex (v : value) : bool :=
  match v with VComplex _ => true | _ => false end.

(** [v == 0]. *)
Definition is_zero (v : value) : bool :=
  match as_number v with
  | Some (NInt n) => n =? 0
  | Some (NFloat x) => feqb x float_zero
  | Some (NComplex c) => feqb (real c) float_zero && feqb (imag c) float_zero
  | None => false
  end.

(** The node classes outside Literal, UnaryOp and BinOp. *)
Definition other_construct (node : AST) : bool :=
  match node with
  | Expression _ | BinOp _ _ _ | UnaryOp _ _ | Constant _ => false
  | _ => true
  end.

(** What [_eval] says of such a node: the words depend on the class of
    the node alone. *)
Definition refusal (node : AST) : string :=
  match node with
  | Call _ _ _ => "Function calls not allowed"
  | _ => "Unsupported expression: " ++ repr_class (class_name node)
  end.

(** A place in a tree that [_eval] walks down to: below [Expression],
    below an operand of [UnaryOp], or below an operand of [BinOp]. *)
Inductive context : Type :=
| Hole
| InExpression (c : context)
| InLeft (c : context) (op : operator) (node_right : AST)
| InRight (node_left : AST) (op : operator) (c : context)
| InOperand (op : unaryop) (c : context).

Fixpoint plug (c : context) (node : AST) : AST :=
  match c with
  | Hole => node
  | InExpression c => Expression (plug c node)
  | InLeft c op r => BinOp (plug c node) op r
  | InRight l op c => BinOp l op (plug c node)
  | InOperand op c => UnaryOp op (plug c node)
  end.

(** On platform [P] the walk gets to the hole: every left operand it
    evaluates on the way returns. *)
Fixpoint reaches (P : platform) (c : context) : bool :=
  match c with
  | Hole => true
  | InExpression c | InLeft c _ _ | InOperand _ c => reaches P c
  | InRight l _ c =>
      match run P (_eval l) with
      | Return _ => reaches P c
      | Raise _ => false
      end
  end.

(** The exceptions Python's arithmetic raises. *)
Definition arith_exn (e : exn) : bool :=
  match e with ValueError _ => false | _ => true end.

(** What an operator of the whitelist can do: return a number, or raise
    an arithmetic exception. *)
Definition arith_result (r : result value) : Prop :=
  match r with
  | Return v => is_number v = true
  | Raise e => arith_exn e = true
  end.

(** What the evaluator can do: return a number, fail with one of the five
    kinds, or raise [TypeError]. *)
Definition sound_result (r : result value) : Prop :=
  match r with
  | Return v => is_number v = true
  | Raise e => (exists k, failure_of e = Some k) \/ e = TypeError
  end.

(** The two exceptions behind [ArithmeticFailure]. *)
Definition arithmetic_failure (e : exn) : Prop :=
  e = ZeroDivisionError \/ e = OverflowError.

(** A platform to run examples that ask nothing: every power is out of
    range, every text is empty and the limit on digits is the default. *)
Definition quiet_platform : platform :=
  fun X q =>
    match q in event X return X with
    | LibmPow _ _ => PowERANGE
    | ComplexPow _ _ => CPowERANGE
    | Str _ => EmptyString
    | IntMaxStrDigits => 4300
    end.

(** The same platform, but for the text of floats and complex numbers,
    which is [text]. *)
Definition answering (text : string) : platform :=
  fun X q =>
    match q in event X return X with
    | Str _ => text
    | q' => quiet_platform _ q'
    end.

(** A rule of the grammar that has answered with fuel [n] gives the same
    answer with more. *)
Definition stable (rule : nat -> list token -> option (AST * list token))
    (n : nat) : Prop :=
  forall ts r, rule n ts = Some r -> rule (S n) ts = Some r.

Definition stable_rest
    (rule : nat -> AST -> list token -> option (AST * list token))
    (n : nat) : Prop :=
  forall e ts r, rule n e ts = Some r -> rule (S n) e ts = Some r.

(** The integer that an expression of int literals, [+], [-], [*], [%]
    and [**] denotes: [%] as the remainder of the floor division by a
    divisor that is not zero, [**] with an exponent that is not negative. *)
Fixpoint integer_value (node : AST) : option Z :=
  match node with
  | Expression body => integer_value body
  | Constant (VInt n) => Some n
  | UnaryOp USub x => option_map Z.opp (integer_value x)
  | UnaryOp UAdd x => integer_value x
  | BinOp l op r =>
      match integer_value l, integer_value r with
      | Some a, Some b =>
          match op with
          | Add => Some (a + b)
          | Sub => Some (a - b)
          | Mult => Some (a * b)
          | Mod => if b =? 0 then None else Some (a mod b)
          | Pow => if b <? 0 then None else Some (a ^ b)
          | _ => None
          end
      | _, _ => None
      end
  | _ => None
  end.

(** The operator [o] stands somewhere the walk goes: below [Expression]
    and below the operands of [UnaryOp] and [BinOp]. *)
Fixpoint has_operator (o : operator) (node : AST) : bool :=
  match node with
  | Expression body => has_operator o body
  | BinOp l op r => operator_beq op o || has_operator o l || has_operator o r
  | UnaryOp _ x => has_operator o x
  | _ => false
  end.

(** A complex literal stands somewhere the walk goes. *)
Fixpoint has_complex_literal (node : AST) : bool :=
  match node with
  | Expression body => has_complex_literal body
  | BinOp l _ r => has_complex_literal l || has_complex_literal r
  | UnaryOp _ x => has_complex_literal x
  | Constant (VComplex _) => true
  | _ => false
  end.

(** The literal a tree consists of, when it is a literal and nothing
    else. *)
Fixpoint literal_of (node : AST) : option value :=
  match node with
  | Expression body => literal_of body
  | Constant v => Some v
  | _ => None
  end.

(** The first node the walk evaluates is a name, a call or an attribute
    access. *)
Fixpoint starts_refused (node : AST) : bool :=
  match node with
  | Expression body => starts_refused body
  | BinOp l _ _ => starts_refused l
  | Name _ | Call _ _ _ | Attribute _ _ => true
  | _ => false
  end.

(** [s.count(c)] for a character [c]. *)
Fixpoint count (c : ascii) (s : string) : nat :=
  match s with
  | EmptyString => O
  | String c' s' => if Ascii.eqb c' c then S (count c s') else count c s'
  end.

(** Every character of [s] satisfies [p]. *)
Fixpoint all (p : ascii -> bool) (s : string) : bool :=
  match s with
  | EmptyString => true
  | String c s' => p c && all p s'
  end.

(** [c in '0123456789+-*/().%^']. *)
Definition is_key (c : ascii) : bool :=
  existsb (Ascii.eqb c) (list_ascii_of_string Calculator.bound_keys).

(** The key events that type [s], one character each. *)
Definition typing (s : string) : list string :=
  map (fun c => String c EmptyString) (list_ascii_of_string s).

(** A float with a value: not infinite, not NaN. *)
Definition is_finite (x : float) : bool := negb (isnan x) && negb (isinf x).

(** What the evaluator can do when [TypeError] is out of the question:
    return a number or fail with one of the five kinds. *)
Definition typed_result (r : result value) : Prop :=
  match r with
  | Return v => is_number v = true
  | Raise e => exists k, failure_of e = Some k
  end.

(** A number that is not complex: an int, a bool or a float. *)
Definition is_real (v : value) : bool := is_number v && negb (is_complex v).

Definition real_result (r : result value) : Prop :=
  match r with
  | Return v => is_real v = true
  | Raise e => exists k, failure_of e = Some k
  end.

(** What an operator of the table does to numbers it has a slot for. *)
Definition operator_result (r : result value) : Prop :=
  match r with
  | Return v => is_number v = true
  | Raise e => arithmetic_failure e
  end.

Definition real_operator_result (r : result value) : Prop :=
  match r with
  | Return v => is_real v = true
  | Raise e => arithmetic_failure e
  end.

(** The outcome is not a bool. *)
Definition not_bool (r : result value) : Prop :=
  match r with
  | Return (VBool _) => False
  | _ => True
  end.

(** A rule that goes on from an expression [e] keeps the first node the
    walk evaluates. *)
Definition keeps_refused
    (rule : nat -> AST -> list token -> option (AST * list token))
    (fuel : nat) : Prop :=
  forall e ts e' ts',
    starts_refused e = true -> rule fuel e ts = Some (e', ts') ->
    starts_refused e' = true.

(** A token an expression can end with. *)
Definition closing (t : token) : bool :=
  match t with
  | NUMBER _ _ | NAME _ | STRING _ | RPAR | ELLIPSIS => true
  | _ => false
  end.

(** A token an expression cannot end with. *)
Definition opening (t : token) : bool := negb (closing t).

(** The characters of the keys that leave an expression unfinished. *)
Definition open_chars : list ascii := ["+"; "-"; "*"; "/"; "%"; "("]%char.

(** The last token of [ts] satisfies [p]. *)
Definition ends_with (p : token -> bool) (ts : list token) : Prop :=
  exists pre t, ts = (pre ++ [t])%list /\ p t = true.

(** [rest] is what is left of [ts] once tokens that end with a closing
    token have been taken from its head. *)
Definition consumes (ts rest : list token) : Prop :=
  exists pre, ts = (pre ++ rest)%list /\ ends_with closing pre.

Definition may_consume (ts rest : list token) : Prop :=
  ts = rest \/ consumes ts rest.

Definition rule_consumes
    (rule : nat -> list token -> option (AST * list token))
    (n : nat) : Prop :=
  forall ts e rest, rule n ts = Some (e, rest) -> consumes ts rest.

Definition rest_consumes
    (rule : nat -> AST -> list token -> option (AST * list token))
    (n : nat) : Prop :=
  forall e ts e' rest, rule n e ts = Some (e', rest) -> may_consume ts rest.

(** [c] is a digit, a point, whitespace, or one of the operator
    characters and parentheses [+ - * / % ^ ( )]. *)
Definition in_alphabet (c : ascii) : bool :=
  isdigit c || Ascii.eqb c "." || isspace c
  || existsb (Ascii.eqb c) (list_ascii_of_string "+-*/%^()").

(** A number with a value: no float that is infinite or NaN, alone or as
    a part of a complex number. *)
Definition is_finite_number (v : value) : bool :=
  match v with
  | VInt _ | VBool _ => true
  | VFloat x => is_finite x
  | VComplex c => is_finite (real c) && is_finite (imag c)
  | _ => false
  end.

(** Python's [==] on two numbers of the same type. *)
Definition same_number (v w : value) : bool :=
  match v, w with
  | VInt a, VInt b => a =? b
  | VBool a, VBool b => Bool.eqb a b
  | VFloat x, VFloat y => feqb x y
  | VComplex c, VComplex d =>
      feqb (real c) (real d) && feqb (imag c) (imag d)
  | _, _ => false
  end.

(** What the parser makes of a text that starts with a minus sign. *)
Definition signed (negative : bool) (e : AST) : AST :=
  if negative then UnaryOp USub e else e.

(** The literal that the text of a complex number holds for a real part
    [x] that is not negative: a float, or an int when [x] is a whole
    number written without an exponent. *)
Definition reads_real (lit : value) (x : float) : Prop :=
  lit = VFloat x \/ exists k, lit = VInt k /\ 0 <= k /\ float_of_Z k = x.

(** The tree [ast.parse] builds from the text [str] writes for a finite
    number: a literal, after a minus sign when the number is negative;
    for a complex number the imaginary literal alone when the real part
    is [0.0], the sum or difference of the two parts otherwise.  That
    the literal of a float has the value of the float is the round trip
    that Python's [repr] guarantees. *)
Definition text_tree (v : value) (tree : AST) : Prop :=
  match v with
  | VInt n => tree = signed (n <? 0) (Constant (VInt (Z.abs n)))
  | VBool b => tree = Constant (VBool b)
  | VFloat x => tree = signed (signbit x) (Constant (VFloat (fabs x)))
  | VComplex c =>
      let imaginary :=
        Constant (VComplex (Complex float_zero (fabs (imag c)))) in
      match real c with
      | S754_zero false => tree = signed (signbit (imag c)) imaginary
      | x =>
          exists lit,
            reads_real lit (fabs x) /\
            tree = BinOp (signed (signbit x) (Constant lit))
                         (if signbit (imag c) then Sub else Add) imaginary
      end
  | _ => False
  end.

(** The parser reads [text] as the text of [v]. *)
Definition reads_back (parse : string -> option AST) (text : string)
    (v : value) : Prop :=
  exists tree,
    parse (replace "^" "**" text) = Some (Expression tree) /\
    text_tree v tree.

(** The floats of the examples: 0.5, 2.5 and 8.0. *)
Definition float_half : float := S754_finite false 4503599627370496 (-53).
Definition float_2_5 : float := S754_finite false 5629499534213120 (-51).
Definition float_8 : float := S754_finite false 4503599627370496 (-49).

(** CPython's [(-8) ** .5], which prints as
    [(1.7319121124709868e-16+2.8284271247461903j)]. *)
Definition sqrt_minus_8 : complex :=
  Complex (S754_finite false 7025470172532439 (-105))
          (S754_finite false 6369051672525773 (-51)).

(** A platform that answers [sqrt_minus_8] to a complex power, and
    ["(inf+infj)"] when asked for a text. *)
Definition infinite_complex_platform : platform :=
  fun X q =>
    match q in event X return X with
    | ComplexPow _ _ => CPowVal sqrt_minus_8
    | Str _ => "(inf+infj)"
    | q' => quiet_platform _ q'
    end.

(** * Properties *)

Ltac break_if :=
  match goal with
  | |- context [if ?b then _ else _] => destruct b
  end.

(** ** Computations on a platform *)

Lemma run_bind {A B : Type} (P : platform) (m : comp A) (f : A -> comp B) :
  run P (bind m f) =
  match run P m with
  | Return a => run P (f a)
  | Raise e => Raise e
  end.
Proof.
  induction m as [a | e | X q k IH]; simpl; auto.
Qed.

Lemma run_try_except {A : Type} (P : platform) (m : comp A) (h : exn -> comp A) :
  run P (try_except m h) =
  match run P m with
  | Return a => Return a
  | Raise e => run P (h e)
  end.
Proof.
  induction m as [a | e | X q k IH]; simpl; auto.
Qed.

(** ** Strings *)

Lemma replace_caret_idempotent (s : string) :
  replace "^" "**" (replace "^" "**" s) = replace "^" "**" s.
Proof.
  induction s as [| c s IH]; simpl; auto.
  destruct (Ascii.eqb c "^") eqn:E; simpl; rewrite ?E, IH; auto.
Qed.

(** ** The operators return numbers or raise arithmetic exceptions *)

Lemma arith_sound (r : result value) : arith_result r -> sound_result r.
Proof.
  destruct r as [v | []]; simpl; auto; try discriminate;
    intros _; left; eexists; reflexivity.
Qed.

Lemma run_PyLong_AsDouble (P : platform) (n : Z) :
  run P (PyLong_AsDouble n) = Raise OverflowError \/
  exists x, run P (PyLong_AsDouble n) = Return x.
Proof.
  unfold PyLong_AsDouble. destruct (isinf _); simpl; eauto.
Qed.

Lemma CONVERT_TO_DOUBLE_cases (P : platform) (a : number) :
  (exists x, run P (CONVERT_TO_DOUBLE a) = Return x) \/
  (exists e, run P (CONVERT_TO_DOUBLE a) = Raise e /\ arith_exn e = true).
Proof.
  destruct a; simpl; eauto.
  destruct (run_PyLong_AsDouble P n) as [H | [x H]]; rewrite H; eauto.
Qed.

Lemma TO_COMPLEX_cases (P : platform) (a : number) :
  (exists x, run P (TO_COMPLEX a) = Return x) \/
  (exists e, run P (TO_COMPLEX a) = Raise e /\ arith_exn e = true).
Proof.
  destruct a; simpl; eauto.
  rewrite run_bind.
  destruct (run_PyLong_AsDouble P n) as [H | [x H]]; rewrite H; simpl; eauto.
Qed.

Lemma binary_op_arith (P : platform) long_op float_op complex_op (v w : value) :
  (forall a b, arith_result (run P (long_op a b))) ->
  (forall x y, arith_result (run P (float_op x y))) ->
  (forall f x y, complex_op = Some f -> arith_result (run P (f x y))) ->
  arith_result (run P (binary_op long_op float_op complex_op v w)).
Proof.
  intros Hl Hf Hc. unfold binary_op.
  destruct (as_number v) as [a |], (as_number w) as [b |];
    try (destruct a; exact eq_refl); try exact eq_refl.
  assert (Hfloat : arith_result
            (run P (x <- CONVERT_TO_DOUBLE a;; y <- CONVERT_TO_DOUBLE b;;
                    float_op x y))).
  { rewrite run_bind.
    destruct (CONVERT_TO_DOUBLE_cases P a) as [[x ->] | [e [-> He]]]; auto.
    rewrite run_bind.
    destruct (CONVERT_TO_DOUBLE_cases P b) as [[y ->] | [e [-> He]]]; auto. }
  assert (Hcomplex : arith_result
            (run P (match complex_op with
                    | Some f => x <- TO_COMPLEX a;; y <- TO_COMPLEX b;; f x y
                    | None => Throw TypeError
                    end))).
  { destruct complex_op as [f |]; [| exact eq_refl].
    rewrite run_bind.
    destruct (TO_COMPLEX_cases P a) as [[x ->] | [e [-> He]]]; auto.
    rewrite run_bind.
    destruct (TO_COMPLEX_cases P b) as [[y ->] | [e [-> He]]]; eauto. }
  destruct a, b; auto.
Qed.

Lemma complex_pow_arith (P : platform) (a b : complex) :
  arith_result (run P (complex_pow a b)).
Proof.
  unfold complex_pow. simpl.
  destruct (P _ _); simpl; repeat break_if; reflexivity.
Qed.

Lemma float_pow_arith (P : platform) (iv iw : float) :
  arith_result (run P (float_pow iv iw)).
Proof.
  unfold float_pow, complex_pow.
  repeat break_if; simpl; try reflexivity;
    destruct (P _ _); simpl; repeat break_if; reflexivity.
Qed.

Lemma long_pow_arith (P : platform) (a b : Z) :
  arith_result (run P (long_pow a b)).
Proof.
  unfold long_pow. destruct (b <? 0); [| reflexivity].
  rewrite run_bind.
  destruct (run_PyLong_AsDouble P a) as [-> | [x ->]]; [reflexivity |].
  rewrite run_bind.
  destruct (run_PyLong_AsDouble P b) as [-> | [y ->]]; [reflexivity |].
  apply float_pow_arith.
Qed.

Lemma op_add_arith (P : platform) (v w : value) :
  arith_result (run P (op_add v w)).
Proof. apply binary_op_arith; intros; try injection H as <-; reflexivity. Qed.

Lemma op_sub_arith (P : platform) (v w : value) :
  arith_result (run P (op_sub v w)).
Proof. apply binary_op_arith; intros; try injection H as <-; reflexivity. Qed.

Lemma op_mul_arith (P : platform) (v w : value) :
  arith_result (run P (op_mul v w)).
Proof. apply binary_op_arith; intros; try injection H as <-; reflexivity. Qed.

Lemma op_truediv_arith (P : platform) (v w : value) :
  arith_result (run P (op_truediv v w)).
Proof.
  apply binary_op_arith.
  - intros a b. unfold long_true_divide. repeat break_if; reflexivity.
  - intros x y. unfold float_div. break_if; reflexivity.
  - intros f x y [= <-]. unfold complex_div.
    destruct (_Py_c_quot x y); reflexivity.
Qed.

Lemma op_mod_arith (P : platform) (v w : value) :
  arith_result (run P (op_mod v w)).
Proof.
  apply binary_op_arith.
  - intros a b. unfold long_mod. break_if; reflexivity.
  - intros x y. unfold float_rem. repeat break_if; reflexivity.
  - discriminate.
Qed.

Lemma op_pow_arith (P : platform) (v w : value) :
  arith_result (run P (op_pow v w)).
Proof.
  apply binary_op_arith.
  - apply long_pow_arith.
  - apply float_pow_arith.
  - intros f x y [= <-]. apply complex_pow_arith.
Qed.

Lemma op_neg_arith (P : platform) (v : value) :
  arith_result (run P (op_neg v)).
Proof. unfold op_neg. destruct (as_number v) as [[] |]; reflexivity. Qed.

Lemma op_pos_arith (P : platform) (v : value) :
  arith_result (run P (op_pos v)).
Proof. unfold op_pos. destruct (as_number v) as [[] |]; reflexivity. Qed.

(** ** The walk *)

Ltac typed_failure := simpl; left; eexists; reflexivity.

(** Whatever the tree, [_eval] returns a number, fails with one of the
    five kinds, or raises [TypeError]. *)
Lemma _eval_sound (P : platform) (node : AST) :
  sound_result (run P (_eval node)).
Proof.
  induction node as [body IH | l IHl op r IHr | op operand IH | v
                     | func args keywords | id | obj IH attr | obj IH
                     | elts | cls];
    try typed_failure.
  - exact IH.
  - cbn [_eval]. rewrite run_bind.
    destruct (run P (_eval l)) as [a | e]; [| exact IHl].
    rewrite run_bind.
    destruct (run P (_eval r)) as [b | e]; [| exact IHr].
    destruct op;
      cbn [lookup _ALLOWED_OPERATORS op_type_beq operator_beq unaryop_beq call2];
      try typed_failure; apply arith_sound.
    + apply op_add_arith.
    + apply op_sub_arith.
    + apply op_mul_arith.
    + apply op_truediv_arith.
    + apply op_mod_arith.
    + apply op_pow_arith.
  - cbn [_eval]. rewrite run_bind.
    destruct (run P (_eval operand)) as [a | e]; [| exact IH].
    destruct op;
      cbn [lookup _ALLOWED_OPERATORS op_type_beq operator_beq unaryop_beq call1];
      try typed_failure; apply arith_sound.
    + apply op_pos_arith.
    + apply op_neg_arith.
  - destruct v; try reflexivity; typed_failure.
Qed.

(** Only numbers come out of [_eval]. *)
Lemma _eval_number (P : platform) (node : AST) (v : value) :
  run P (_eval node) = Return v -> is_number v = true.
Proof.
  intros H. pose proof (_eval_sound P node) as S. now rewrite H in S.
Qed.

Lemma float___trunc___integer (x : float) :
  float_is_integer x = true -> float___trunc__ x = Ret (VInt (float_trunc x)).
Proof. destruct x; simpl; auto; discriminate. Qed.

(** What [display] does to a result. *)
Lemma display_spec (v : value) :
  display v =
  Ret match v with
      | VFloat x => if float_is_integer x then VInt (float_trunc x) else v
      | _ => v
      end.
Proof.
  destruct v; try reflexivity. simpl.
  destruct (float_is_integer x) eqn:E; auto using float___trunc___integer.
Qed.

(** The integer [display] shows for a float with no fractional part has
    the value of the float, [m * 2 ^ e]. *)
Lemma float_trunc_exact (s : bool) (m : positive) (e : Z) :
  float_is_integer (S754_finite s m e) = true ->
  float_trunc (S754_finite s m e) * 2 ^ Z.max (- e) 0 =
  cond_Zopp s (Zpos m) * 2 ^ Z.max e 0.
Proof.
  unfold float_is_integer, float_trunc. intros H.
  assert (Hm : Z.shiftl (Zpos m) e * 2 ^ Z.max (- e) 0 = Zpos m * 2 ^ Z.max e 0).
  { destruct (Z.leb_spec 0 e) as [He | He].
    - rewrite Z.shiftl_mul_pow2 by lia.
      rewrite (Z.max_r (- e) 0), (Z.max_l e 0) by lia. simpl. lia.
    - simpl in H. apply Z.eqb_eq in H.
      replace e with (- - e) at 1 by lia.
      rewrite Z.shiftl_opp_r, Z.shiftr_div_pow2 by lia.
      rewrite (Z.max_l (- e) 0), (Z.max_r e 0) by lia.
      assert (Hp : 0 < 2 ^ (- e)) by (apply Z.pow_pos_nonneg; lia).
      rewrite Z.mul_1_r.
      rewrite (Z.div_mod (Zpos m) (2 ^ (- e))) at 2 by lia.
      rewrite H. ring. }
  destruct s; unfold cond_Zopp; [| exact Hm].
  rewrite !Z.mul_opp_l. now rewrite Hm.
Qed.

(** An exception raised at a place the walk gets to is the exception of
    the whole tree. *)
Lemma raise_propagates (P : platform) (c : context) (node : AST) (e : exn) :
  reaches P c = true ->
  run P (_eval node) = Raise e ->
  run P (_eval (plug c node)) = Raise e.
Proof.
  intros Hc He. induction c as [| c IH | c IH op r | l op c IH | op c IH];
    simpl in *; auto.
  - rewrite run_bind, IH; auto.
  - rewrite run_bind. destruct (run P (_eval l)); [| discriminate].
    rewrite run_bind, IH; auto.
  - rewrite run_bind, IH; auto.
Qed.

(** ** Constructs outside the whitelist *)

Lemma _eval_other_construct (node : AST) :
  other_construct node = true ->
  _eval node = Throw (ValueError (refusal node)) /\
  failure_of (ValueError (refusal node)) = Some DisallowedConstruct.
Proof.
  destruct node; try discriminate; intros _; split; reflexivity.
Qed.

(** C1.  When the walk of the parsed input gets to a call, a name, an
    attribute access or any other node that is not a literal, a [UnaryOp]
    or a [BinOp], [safe_eval] raises the [ValueError] of kind
    [DisallowedConstruct], worded from the class of the node alone:
    nothing inside the construct is looked at, let alone executed.  When
    the whole input is such a node, the computation is that [Throw] and
    nothing else: it asks the platform nothing. *)
Theorem C1_other_construct_is_disallowed
    (P : platform) (parse : string -> option AST) (expr : string)
    (c : context) (node : AST) :
  parse (replace "^" "**" expr) = Some (plug c node) ->
  reaches P c = true ->
  other_construct node = true ->
  run P (safe_eval parse expr) = Raise (ValueError (refusal node)) /\
  failure_of (ValueError (refusal node)) = Some DisallowedConstruct /\
  (c = InExpression Hole ->
   safe_eval parse expr = Throw (ValueError (refusal node))).
Proof.
  intros Hparse Hc Hnode.
  destruct (_eval_other_construct node Hnode) as [He Hk].
  repeat split; auto.
  - unfold safe_eval. rewrite Hparse, run_bind.
    rewrite (raise_propagates P c node (ValueError (refusal node)) Hc);
      [reflexivity | now rewrite He].
  - intros ->. unfold safe_eval. rewrite Hparse. simpl plug.
    change (_eval (Expression node)) with (_eval node). now rewrite He.
Qed.

(** The example of the specification, ["__import__('os')"]. *)
Lemma C1_import_os_witness :
  ast_parse (replace "^" "**" "__import__('os')") =
    Some (plug (InExpression Hole)
               (Call (Name "__import__") [Constant (VStr "os")] [])) /\
  run quiet_platform (safe_eval ast_parse "__import__('os')") =
    Raise (ValueError "Function calls not allowed") /\
  failure_of (ValueError "Function calls not allowed") =
    Some DisallowedConstruct /\
  safe_eval ast_parse "__import__('os')" =
    Throw (ValueError "Function calls not allowed").
Proof.
  assert (Hparse : ast_parse (replace "^" "**" "__import__('os')") =
    Some (plug (InExpression Hole)
               (Call (Name "__import__") [Constant (VStr "os")] [])))
    by (vm_compute; reflexivity).
  split; [exact Hparse |].
  destruct (C1_other_construct_is_disallowed quiet_platform ast_parse
              "__import__('os')" (InExpression Hole)
              (Call (Name "__import__") [Constant (VStr "os")] [])
              Hparse eq_refl eq_refl) as [H1 [H2 H3]].
  split; [exact H1 |]. split; [exact H2 |]. exact (H3 eq_refl).
Defined.

(** ** Every outcome is a number or a failure *)

(** C2, as amended.  For every input string of digits, [.], whitespace
    and the characters of the operators [+ - * / % ** ^ ( )], on every
    platform, [safe_eval] returns a number (an int, a bool, a float or a
    complex) or raises an exception that is one of the five kinds of
    failure or a [TypeError].  On such a string Python's parser returns a
    tree or raises a [SyntaxError], which is what [parse] stands for.
    [safe_eval] is a function of its input and of the platform's answers:
    there is no state for it to change. *)
Theorem C2_number_or_failure
    (P : platform) (parse : string -> option AST) (expr : string) :
  all in_alphabet expr = true ->
  match run P (safe_eval parse expr) with
  | Return v => is_number v = true
  | Raise e => (exists k, failure_of e = Some k) \/ e = TypeError
  end.
Proof.
  intros _. unfold safe_eval.
  destruct (parse _) as [node |]; [| typed_failure].
  rewrite run_bind. pose proof (_eval_sound P node) as S.
  destruct (run P (_eval node)) as [v | e]; [| exact S].
  rewrite display_spec. simpl.
  destruct v; auto. destruct (float_is_integer x); auto.
Qed.

(** ["(2+3)*4/0"] is such a string; its evaluation raises one of the
    five. *)
Lemma C2_alphabet_witness :
  all in_alphabet "(2+3)*4/0" = true /\
  run quiet_platform (safe_eval ast_parse "(2+3)*4/0") = Raise ZeroDivisionError /\
  ((exists k, failure_of ZeroDivisionError = Some k) \/
   ZeroDivisionError = TypeError).
Proof.
  assert (H : all in_alphabet "(2+3)*4/0" = true) by reflexivity.
  split; [exact H |]. split; [vm_compute; reflexivity |].
  exact (C2_number_or_failure quiet_platform ast_parse "(2+3)*4/0" H).
Defined.

(** [(-8) ** .5] is a complex power. *)
Lemma minus_8_pow_half :
  _eval (BinOp (UnaryOp USub (Constant (VInt 8))) Pow
               (Constant (VFloat float_half))) =
  complex_pow (Complex (fneg float_8) float_zero)
              (Complex float_half float_zero).
Proof. vm_compute. reflexivity. Qed.

(** [((-8) ** .5) % n] raises [TypeError] once the power has returned. *)
Lemma modulo_of_complex (P : platform) (c : complex) (n : Z) :
  P _ (ComplexPow (Complex (fneg float_8) float_zero)
                  (Complex float_half float_zero)) = CPowVal c ->
  isinf (real c) || isinf (imag c) = false ->
  run P (_eval (Expression
                  (BinOp (BinOp (UnaryOp USub (Constant (VInt 8))) Pow
                                (Constant (VFloat float_half)))
                         Mod (Constant (VInt n))))) = Raise TypeError.
Proof.
  intros HP Hc.
  change (_eval (Expression ?b)) with (_eval b).
  change (_eval (BinOp ?l ?op ?r)) with
    (left_ <- _eval l;; right_ <- _eval r;;
     match lookup _ALLOWED_OPERATORS (operator_type op) with
     | Some f => call2 f left_ right_
     | None =>
         Throw (ValueError ("Unsupported binary operator: "
                            ++ repr_class (op_type_name (operator_type op))))
     end) at 1.
  rewrite run_bind, minus_8_pow_half. unfold complex_pow. cbn [run].
  rewrite HP, Hc. reflexivity.
Qed.

(** C2 as stated fails on ["(-8)**.5%2"], a string of digits, a point
    and operator characters: a negative number raised to a fractional
    power is complex, and [%] of a complex raises [TypeError], which is
    none of the five kinds.  This holds on every platform whose complex
    power returns a finite value here (CPython's is about 1.7e-16+2.8j). *)
Lemma C2_complex_modulo_counterexample :
  ast_parse "(-8)**.5%2" =
    Some (Expression
            (BinOp (BinOp (UnaryOp USub (Constant (VInt 8))) Pow
                          (Constant (VFloat float_half)))
                   Mod (Constant (VInt 2)))) /\
  (forall (P : platform) (c : complex),
      P _ (ComplexPow (Complex (fneg float_8) float_zero)
                      (Complex float_half float_zero)) = CPowVal c ->
      isinf (real c) || isinf (imag c) = false ->
      run P (safe_eval ast_parse "(-8)**.5%2") = Raise TypeError) /\
  failure_of TypeError = None.
Proof.
  assert (Hparse : ast_parse "(-8)**.5%2" =
    Some (Expression
            (BinOp (BinOp (UnaryOp USub (Constant (VInt 8))) Pow
                          (Constant (VFloat float_half)))
                   Mod (Constant (VInt 2))))) by (vm_compute; reflexivity).
  split; [exact Hparse |]. split; [| reflexivity].
  intros P c HP Hc. unfold safe_eval.
  change (replace "^" "**" "(-8)**.5%2") with "(-8)**.5%2".
  rewrite Hparse, run_bind, (modulo_of_complex P c 2 HP Hc). reflexivity.
Qed.

(** ** Division and modulo by zero *)

Lemma feqb_zero (x : float) :
  feqb x float_zero = true -> exists s, x = S754_zero s.
Proof.
  destruct x as [s | s | | s m e]; try (destruct s; discriminate); eauto.
  discriminate.
Qed.

Lemma as_number_zero (b : value) :
  is_zero b = true ->
  as_number b = Some (NInt 0) \/
  (exists s, as_number b = Some (NFloat (S754_zero s))) \/
  (exists s s',
      as_number b = Some (NComplex (Complex (S754_zero s) (S754_zero s')))).
Proof.
  unfold is_zero.
  destruct (as_number b) as [[n | x | [re im]] |]; try discriminate.
  - intros H. apply Z.eqb_eq in H. subst. auto.
  - intros H. apply feqb_zero in H as [s ->]. eauto.
  - simpl. intros H. apply andb_true_iff in H as [H1 H2].
    apply feqb_zero in H1 as [s ->]. apply feqb_zero in H2 as [s' ->].
    eauto 6.
Qed.

Lemma raise_after_double (P : platform) (a : number) (k : float -> comp value) :
  (forall c, a <> NComplex c) ->
  (forall x, exists e, run P (k x) = Raise e /\ arithmetic_failure e) ->
  exists e,
    run P (x <- CONVERT_TO_DOUBLE a;; k x) = Raise e /\ arithmetic_failure e.
Proof.
  intros Ha Hk. rewrite run_bind. destruct a as [n | x | c].
  - simpl. destruct (run_PyLong_AsDouble P n) as [-> | [x ->]]; auto.
    eexists; split; [reflexivity | right; reflexivity].
  - apply Hk.
  - now destruct (Ha c).
Qed.

Lemma raise_after_complex (P : platform) (a : number) (k : complex -> comp value) :
  (forall x, exists e, run P (k x) = Raise e /\ arithmetic_failure e) ->
  exists e, run P (x <- TO_COMPLEX a;; k x) = Raise e /\ arithmetic_failure e.
Proof.
  intros Hk. rewrite run_bind. destruct a as [n | x | c]; simpl; auto.
  rewrite run_bind.
  destruct (run_PyLong_AsDouble P n) as [-> | [x ->]]; simpl; auto.
  eexists; split; [reflexivity | right; reflexivity].
Qed.

Ltac zero_division := eexists; split; [reflexivity | left; reflexivity].

(** [/] by zero: whatever the numbers. *)
Lemma op_truediv_zero (P : platform) (a b : value) :
  is_number a = true -> is_zero b = true ->
  exists e, run P (op_truediv a b) = Raise e /\ arithmetic_failure e.
Proof.
  unfold is_number, op_truediv, binary_op. intros Ha Hb.
  destruct (as_number a) as [na |]; [| discriminate].
  destruct (as_number_zero b Hb) as [-> | [[s ->] | [s [s' ->]]]].
  - destruct na as [n | x | c].
    + zero_division.
    + apply raise_after_double; [discriminate |]. intros x'. zero_division.
    + apply raise_after_complex. intros x'. zero_division.
  - destruct na as [n | x | c].
    + apply raise_after_double; [discriminate |]. intros x'. zero_division.
    + apply raise_after_double; [discriminate |]. intros x'. zero_division.
    + apply raise_after_complex. intros x'. zero_division.
  - destruct na as [n | x | c];
      apply raise_after_complex; intros x'; zero_division.
Qed.

(** [%] by zero: when neither number is complex. *)
Lemma op_mod_zero (P : platform) (a b : value) :
  is_number a = true -> is_zero b = true ->
  is_complex a = false -> is_complex b = false ->
  exists e, run P (op_mod a b) = Raise e /\ arithmetic_failure e.
Proof.
  unfold is_number, op_mod, binary_op. intros Ha Hb Hca Hcb.
  destruct (as_number_zero b Hb) as [Eb | [[s Eb] | [s [s' Eb]]]];
    [| | destruct b; discriminate]; rewrite Eb;
    (destruct a as [n | t | x | c | | | |]; try discriminate;
     simpl as_number; cbv iota).
  - zero_division.
  - zero_division.
  - apply raise_after_double; [discriminate |]. intros x'. zero_division.
  - apply raise_after_double; [discriminate |]. intros x'. zero_division.
  - apply raise_after_double; [discriminate |]. intros x'. zero_division.
  - apply raise_after_double; [discriminate |]. intros x'. zero_division.
Qed.

(** C3, as amended.  Let the walk get to a node [l / r] or [l % r] whose
    operands evaluate to [a] and [b] with [b == 0].  For [/], and for [%]
    when neither [a] nor [b] is complex, [safe_eval] raises an exception
    of kind [ArithmeticFailure]. *)
Theorem C3_zero_divisor_is_arithmetic_failure
    (P : platform) (parse : string -> option AST) (expr : string)
    (c : context) (l r : AST) (op : operator) (a b : value) :
  parse (replace "^" "**" expr) = Some (plug c (BinOp l op r)) ->
  reaches P c = true ->
  run P (_eval l) = Return a ->
  run P (_eval r) = Return b ->
  is_zero b = true ->
  op = Div \/ (op = Mod /\ is_complex a = false /\ is_complex b = false) ->
  exists e,
    run P (safe_eval parse expr) = Raise e /\
    failure_of e = Some ArithmeticFailure.
Proof.
  intros Hparse Hc Ha Hb Hz Hop.
  assert (H : exists e,
             run P (_eval (BinOp l op r)) = Raise e /\ arithmetic_failure e).
  { cbn [_eval]. rewrite run_bind, Ha, run_bind, Hb.
    pose proof (_eval_number P l a Ha) as Na.
    destruct Hop as [-> | [-> [Hca Hcb]]].
    - apply op_truediv_zero; auto.
    - apply op_mod_zero; auto. }
  destruct H as [e [He Hk]]. exists e. split.
  - unfold safe_eval. rewrite Hparse, run_bind.
    now rewrite (raise_propagates P c _ e Hc He).
  - destruct Hk as [-> | ->]; reflexivity.
Qed.

(** The example of the specification, ["5/0"]. *)
Lemma C3_five_by_zero_witness :
  ast_parse (replace "^" "**" "5/0") =
    Some (plug (InExpression Hole)
               (BinOp (Constant (VInt 5)) Div (Constant (VInt 0)))) /\
  exists e,
    run quiet_platform (safe_eval ast_parse "5/0") = Raise e /\
    failure_of e = Some ArithmeticFailure.
Proof.
  split; [vm_compute; reflexivity |].
  apply (C3_zero_divisor_is_arithmetic_failure quiet_platform ast_parse "5/0"
           (InExpression Hole) (Constant (VInt 5)) (Constant (VInt 0)) Div
           (VInt 5) (VInt 0)); try reflexivity.
  left; reflexivity.
Defined.

(** C3 as stated fails when [%] meets a complex operand and a zero: the
    walk of [1j % 0] raises [TypeError]; so does ["(-8)**.5%0"] on every
    platform whose complex power returns a finite value there. *)
Lemma C3_complex_modulo_counterexample :
  _eval (BinOp (Constant (VComplex (Complex float_zero float_one))) Mod
               (Constant (VInt 0))) = Throw TypeError /\
  ast_parse "(-8)**.5%0" =
    Some (Expression
            (BinOp (BinOp (UnaryOp USub (Constant (VInt 8))) Pow
                          (Constant (VFloat float_half)))
                   Mod (Constant (VInt 0)))) /\
  (forall (P : platform) (c : complex),
      P _ (ComplexPow (Complex (fneg float_8) float_zero)
                      (Complex float_half float_zero)) = CPowVal c ->
      isinf (real c) || isinf (imag c) = false ->
      run P (safe_eval ast_parse "(-8)**.5%0") = Raise TypeError) /\
  failure_of TypeError = None.
Proof.
  assert (Hparse : ast_parse "(-8)**.5%0" =
    Some (Expression
            (BinOp (BinOp (UnaryOp USub (Constant (VInt 8))) Pow
                          (Constant (VFloat float_half)))
                   Mod (Constant (VInt 0))))) by (vm_compute; reflexivity).
  split; [reflexivity |]. split; [exact Hparse |]. split; [| reflexivity].
  intros P c HP Hc. unfold safe_eval.
  change (replace "^" "**" "(-8)**.5%0") with "(-8)**.5%0".
  rewrite Hparse, run_bind, (modulo_of_complex P c 0 HP Hc). reflexivity.
Qed.

(** ** Examples of the specification *)

(** C4.  ["2+3*4"] parses with [*] below [+] and evaluates to 14;
    ["(1+2)*3"] parses with the parenthesised sum below [*] and evaluates
    to 9. *)
Theorem C4_precedence_and_grouping :
  ast_parse "2+3*4" =
    Some (Expression
            (BinOp (Constant (VInt 2)) Add
                   (BinOp (Constant (VInt 3)) Mult (Constant (VInt 4))))) /\
  safe_eval ast_parse "2+3*4" = Ret (VInt 14) /\
  ast_parse "(1+2)*3" =
    Some (Expression
            (BinOp (BinOp (Constant (VInt 1)) Add (Constant (VInt 2)))
                   Mult (Constant (VInt 3)))) /\
  safe_eval ast_parse "(1+2)*3" = Ret (VInt 9).
Proof. repeat split; vm_compute; reflexivity. Qed.

(** C5.  With every parser, [safe_eval] gives an input and the input with
    each [^] replaced by [**] the same computation; ["2^3"] is read as
    ["2**3"] and evaluates to 8. *)
Theorem C5_caret_is_power :
  (forall (parse : string -> option AST) (expr : string),
      safe_eval parse expr = safe_eval parse (replace "^" "**" expr)) /\
  replace "^" "**" "2^3" = "2**3" /\
  safe_eval ast_parse "2^3" = Ret (VInt 8).
Proof.
  split; [| split; vm_compute; reflexivity].
  intros parse expr. unfold safe_eval.
  now rewrite replace_caret_idempotent.
Qed.

(** C6.  When the walk of the parsed input returns [v], [safe_eval]
    returns the int [float_trunc x] if [v] is a float [x] with no
    fractional part (lemma [float_trunc_exact]: that int has the value of
    [x]), and [v] itself otherwise.  ["10/2"] gives the int 5 and
    ["10/4"] the float 2.5. *)
Theorem C6_integral_float_becomes_int :
  (forall (P : platform) (parse : string -> option AST) (expr : string)
          (node : AST) (v : value),
      parse (replace "^" "**" expr) = Some node ->
      run P (_eval node) = Return v ->
      run P (safe_eval parse expr) =
      Return match v with
             | VFloat x =>
                 if float_is_integer x then VInt (float_trunc x) else v
             | _ => v
             end) /\
  safe_eval ast_parse "10/2" = Ret (VInt 5) /\
  safe_eval ast_parse "10/4" = Ret (VFloat float_2_5).
Proof.
  split; [| split; vm_compute; reflexivity].
  intros P parse expr node v Hparse Hv.
  unfold safe_eval. rewrite Hparse, run_bind, Hv.
  now rewrite display_spec.
Qed.

(** The walk of ["10/2"] returns the float 5.0, which [safe_eval] turns
    into the int 5. *)
Lemma C6_ten_by_two_witness :
  ast_parse (replace "^" "**" "10/2") =
    Some (Expression (BinOp (Constant (VInt 10)) Div (Constant (VInt 2)))) /\
  run quiet_platform
      (_eval (Expression (BinOp (Constant (VInt 10)) Div (Constant (VInt 2))))) =
    Return (VFloat (float_of_Z 5)) /\
  run quiet_platform (safe_eval ast_parse "10/2") = Return (VInt 5).
Proof.
  split; [vm_compute; reflexivity |]. split; [vm_compute; reflexivity |].
  apply (proj1 C6_integral_float_becomes_int quiet_platform ast_parse "10/2"
           (Expression (BinOp (Constant (VInt 10)) Div (Constant (VInt 2))))
           (VFloat (float_of_Z 5))); vm_compute; reflexivity.
Defined.

(** ** The reference parser and its fuel *)

Ltac unroll f H :=
  cbn [f] in H;
  match goal with
  | |- context [S (S ?n)] =>
      let m := fresh "m" in
      let Hm := fresh "Hm" in
      remember (S n) as m eqn:Hm; cbn [f]; subst m
  end.

Ltac call f IH :=
  match goal with
  | H : context [f ?n ?ts] |- _ =>
      let E := fresh "E" in
      destruct (f n ts) as [[? ?] |] eqn:E; [| discriminate];
      apply IH in E; rewrite E
  end.

Ltac closing :=
  match goal with
  | H : context [match ?l with [] => _ | _ :: _ => _ end] |- _ =>
      let t := fresh "t" in
      destruct l as [| t ?]; [discriminate | destruct t; try discriminate]
  end.

(** More fuel never changes what a rule has answered. *)
Lemma fuel_stable (n : nat) :
  stable rule_sum n /\ stable_rest rule_sum_rest n /\ stable rule_term n /\
  stable_rest rule_term_rest n /\ stable rule_factor n /\
  stable rule_power n /\ stable rule_primary n /\
  stable_rest rule_trailers n /\ stable rule_atom n.
Proof.
  induction n as [| n IH].
  - repeat split; intros ? ? ?; discriminate.
  - destruct IH as (Hsum & Hsumr & Hterm & Htermr & Hfac & Hpow & Hprim
                    & Htrail & Hatom).
    repeat split.
    + intros ts r H. unroll rule_sum H. call rule_term Hterm.
      now apply Hsumr.
    + intros e ts r H. unroll rule_sum_rest H.
      destruct ts as [| [] ts1]; auto; call rule_term Hterm; now apply Hsumr.
    + intros ts r H. unroll rule_term H. call rule_factor Hfac.
      now apply Htermr.
    + intros e ts r H. unroll rule_term_rest H.
      destruct ts as [| [] ts1]; auto; call rule_factor Hfac;
        now apply Htermr.
    + intros ts r H. unroll rule_factor H.
      destruct ts as [| [] ts1]; try (now apply Hpow);
        call rule_factor Hfac; assumption.
    + intros ts r H. unroll rule_power H. call rule_primary Hprim.
      destruct l as [| [] ts1]; auto. call rule_factor Hfac. assumption.
    + intros ts r H. unroll rule_primary H. call rule_atom Hatom.
      now apply Htrail.
    + intros e ts r H. unroll rule_trailers H. unfold expect_rpar in *.
      destruct ts as [| [] ts1]; auto.
      * destruct ts1 as [| [] ts2]; auto; try (now apply Htrail);
          call rule_sum Hsum; closing; now apply Htrail.
      * destruct ts1 as [| [] ts2]; auto.
        destruct (is_keyword id); [discriminate | now apply Htrail].
    + intros ts r H. unroll rule_atom H. unfold expect_rpar in *.
      destruct ts as [| [] ts1]; auto.
      destruct ts1 as [| [] ts2]; auto;
        call rule_sum Hsum; closing; assumption.
Qed.

(** A tree found with the fuel [ast_parse] takes is found with any
    larger fuel. *)
Lemma rule_sum_more_fuel (n k : nat) (ts : list token) (r : AST * list token) :
  rule_sum n ts = Some r -> rule_sum (k + n) ts = Some r.
Proof.
  intros H. induction k as [| k IH]; [exact H |].
  now apply (proj1 (fuel_stable (k + n))).
Qed.

(** The two syntax errors used below are not for want of fuel: no fuel
    finds an expression in no token, or reads [d +] to its end. *)
Lemma rule_sum_nil (fuel : nat) : rule_sum fuel [] = None.
Proof.
  do 6 (destruct fuel as [| fuel]; [reflexivity |]). reflexivity.
Qed.

Lemma rule_sum_trailing_plus (fuel : nat) (d : uint) :
  match rule_sum fuel [NUMBER d None; PLUS] with
  | Some (_, []) => False
  | _ => True
  end.
Proof.
  do 9 (destruct fuel as [| fuel]; [exact I |]). cbn. exact I.
Qed.

(** ** Reading back the text of an int *)

Lemma uint_beq_refl (d : uint) : uint_beq d d = true.
Proof. induction d; simpl; auto. Qed.

Lemma scan_digits_string_of_uint (d : uint) :
  scan_digits (NilEmpty.string_of_uint d) = (d, EmptyString).
Proof. induction d; simpl; rewrite ?IHd; reflexivity. Qed.

Lemma replace_string_of_uint (d : uint) :
  replace "^" "**" (NilEmpty.string_of_uint d) = NilEmpty.string_of_uint d.
Proof. induction d; simpl; rewrite ?IHd; reflexivity. Qed.

Lemma string_of_uint_digit (d : uint) :
  d <> Nil ->
  exists c s, NilEmpty.string_of_uint d = String c s /\ isdigit c = true.
Proof. destruct d; [congruence | ..]; intros _; simpl; eauto. Qed.

Lemma tokenize_number (fuel : nat) (c : ascii) (s : string) (ip : uint) :
  isdigit c = true ->
  scan_digits (String c s) = (ip, EmptyString) ->
  leading_zeros ip = false ->
  tokenize (S fuel) (String c s) = Some [NUMBER ip None].
Proof.
  intros Hc Hs Hz. cbn [tokenize]. rewrite Hc, Hs. simpl. rewrite Hz.
  destruct fuel; reflexivity.
Qed.

Lemma tokenize_digits (d : uint) :
  d <> Nil -> leading_zeros d = false ->
  tokenize (String.length (NilEmpty.string_of_uint d)) (NilEmpty.string_of_uint d)
  = Some [NUMBER d None].
Proof.
  intros Hd Hz. pose proof (scan_digits_string_of_uint d) as Hs.
  destruct (string_of_uint_digit d Hd) as [c [s [E Hc]]].
  rewrite E in *. cbn [String.length]. now apply tokenize_number.
Qed.

Lemma leading_zeros_to_uint (p : positive) : leading_zeros (Pos.to_uint p) = false.
Proof.
  unfold leading_zeros.
  assert (H : unorm (Pos.to_uint p) = Pos.to_uint p).
  { rewrite <- (DecimalPos.Unsigned.to_of (Pos.to_uint p)).
    now rewrite DecimalPos.Unsigned.of_to. }
  now rewrite H, uint_beq_refl.
Qed.

Lemma int_literal_to_uint (p : positive) : int_literal (Pos.to_uint p) = VInt (Zpos p).
Proof.
  unfold int_literal, Z.of_uint. now rewrite DecimalPos.Unsigned.of_to.
Qed.

Lemma ast_parse_digits (d : uint) :
  d <> Nil -> leading_zeros d = false ->
  ast_parse (NilEmpty.string_of_uint d) = Some (Expression (Constant (int_literal d))).
Proof.
  intros Hd Hz. unfold ast_parse. now rewrite tokenize_digits.
Qed.

Lemma ast_parse_minus_digits (d : uint) :
  d <> Nil -> leading_zeros d = false ->
  ast_parse (String "-" (NilEmpty.string_of_uint d)) =
  Some (Expression (UnaryOp USub (Constant (int_literal d)))).
Proof.
  intros Hd Hz. unfold ast_parse. cbn [String.length tokenize].
  change (isdigit "-") with false. cbv iota.
  change (Ascii.eqb "-" ".")%char with false.
  change (Ascii.eqb "-" "+")%char with false.
  change (Ascii.eqb "-" "-")%char with true. cbv iota.
  now rewrite tokenize_digits.
Qed.

Lemma NilZero_string_of_uint (d : uint) :
  d <> Nil -> NilZero.string_of_uint d = NilEmpty.string_of_uint d.
Proof. destruct d; [congruence | reflexivity ..]. Qed.

(** The text of an int evaluates to that int. *)
Lemma safe_eval_str_int (n : Z) : safe_eval ast_parse (str_int n) = Ret (VInt n).
Proof.
  unfold safe_eval, str_int. destruct n as [| p | p]; [reflexivity | |];
    cbn [Z.to_int NilZero.string_of_int];
    pose proof (DecimalPos.Unsigned.to_uint_nonnil p) as Hp;
    pose proof (leading_zeros_to_uint p) as Hz;
    rewrite (NilZero_string_of_uint _ Hp).
  - rewrite replace_string_of_uint, ast_parse_digits by assumption.
    cbn [_eval]. rewrite int_literal_to_uint. reflexivity.
  - cbn [replace]. change (Ascii.eqb "-" "^")%char with false. cbv iota.
    rewrite replace_string_of_uint, ast_parse_minus_digits by assumption.
    cbn [_eval]. rewrite int_literal_to_uint. reflexivity.
Qed.

(** *** Floats and their signs *)

Lemma fneg_fabs (x : float) : signbit x = true -> fneg (fabs x) = x.
Proof. destruct x as [s | s | | s m e]; simpl; intros H; congruence. Qed.

Lemma fabs_positive (x : float) :
  signbit x = false -> isnan x = false -> fabs x = x.
Proof. destruct x as [s | s | | s m e]; simpl; intros H N; congruence. Qed.

Lemma feqb_refl (x : float) : is_finite x = true -> feqb x x = true.
Proof.
  destruct x as [s | s | | s m e]; try discriminate; intros _;
    [reflexivity |].
  unfold feqb, SFeqb, SFcompare.
  destruct s; rewrite Z.compare_refl, ?Pos.compare_cont_refl; reflexivity.
Qed.

(** A float that [safe_eval] returns has a fractional part, or is
    infinite or NaN. *)
Lemma float_result_has_fraction (P : platform) (parse : string -> option AST)
    (expr : string) (x : float) :
  run P (safe_eval parse expr) = Return (VFloat x) ->
  float_is_integer x = false.
Proof.
  unfold safe_eval. destruct (parse _) as [node |]; [| discriminate].
  rewrite run_bind. destruct (run P (_eval node)) as [v | e]; [| discriminate].
  rewrite display_spec. destruct v; try discriminate.
  destruct (float_is_integer x0) eqn:E; [discriminate |].
  now intros [= <-].
Qed.

(** The conversion of an int to a float goes by its absolute value. *)
Lemma float_of_Z_opp (p : positive) :
  float_of_Z (Zneg p) = fneg (float_of_Z (Zpos p)).
Proof.
  unfold float_of_Z, binary_normalize, binary_round.
  destruct (shl_align _ _ _) as [mz ez].
  unfold binary_round_aux.
  destruct (shr_fexp _ _ _ _ _) as [mrs' e'].
  destruct (shr_fexp _ _ _ _ _) as [mrs'' e''].
  destruct (shr_m mrs''); try reflexivity.
  destruct (e'' <=? emax - prec); reflexivity.
Qed.

(** *** The text of an int *)

Lemma str_int_text (P : platform) (n : Z) (text : string) :
  run P (str (VInt n)) = Return text -> text = str_int n.
Proof.
  cbn [str]. unfold long_to_decimal_string. cbn [run].
  destruct (_ && _); [discriminate | now intros [= <-]].
Qed.

Lemma replace_str_int (n : Z) : replace "^" "**" (str_int n) = str_int n.
Proof.
  unfold str_int. destruct n as [| p | p]; [reflexivity | |];
    cbn [Z.to_int NilZero.string_of_int];
    pose proof (DecimalPos.Unsigned.to_uint_nonnil p) as Hp;
    rewrite (NilZero_string_of_uint _ Hp).
  - apply replace_string_of_uint.
  - cbn [replace]. change (Ascii.eqb "-" "^")%char with false. cbv iota.
    now rewrite replace_string_of_uint.
Qed.

(** The reference parser reads the text of an int as that int. *)
Lemma ast_parse_str_int (n : Z) :
  ast_parse (str_int n) =
  Some (Expression (signed (n <? 0) (Constant (VInt (Z.abs n))))).
Proof.
  unfold str_int. destruct n as [| p | p]; [reflexivity | |];
    cbn [Z.to_int NilZero.string_of_int];
    pose proof (DecimalPos.Unsigned.to_uint_nonnil p) as Hp;
    pose proof (leading_zeros_to_uint p) as Hz;
    rewrite (NilZero_string_of_uint _ Hp).
  - rewrite ast_parse_digits by assumption. now rewrite int_literal_to_uint.
  - rewrite ast_parse_minus_digits by assumption.
    now rewrite int_literal_to_uint.
Qed.

(** *** The walk of the tree of a text *)

Lemma feqb_zero_sum (x : float) :
  is_finite x = true ->
  feqb (fadd x float_zero) x = true /\ feqb (fsub x float_zero) x = true /\
  feqb (fadd float_zero (fabs x)) (fabs x) = true /\
  feqb (fsub float_zero (fabs x)) (fneg (fabs x)) = true.
Proof.
  intros H. pose proof (feqb_refl x H) as R.
  pose proof (feqb_refl (fabs x)) as Ra.
  pose proof (feqb_refl (fneg (fabs x))) as Rn.
  destruct x as [s | s | | s m e]; try discriminate;
    [destruct s; repeat split; reflexivity |].
  repeat split; cbn in *; auto.
Qed.

(** The real part of a complex number, as the walk gets it from the
    literal of its text: the part itself, or [0.0] for [-0.0] when the
    literal is the int [0]. *)
Lemma real_part_read (P : platform) (lit : value) (a : float) :
  is_finite a = true ->
  reads_real lit (fabs a) ->
  exists l a',
    run P (_eval (signed (signbit a) (Constant lit))) = Return l /\
    is_complex l = false /\
    run P (TO_COMPLEX match as_number l with
                      | Some n => n
                      | None => NInt 0
                      end) = Return (Complex a' float_zero) /\
    is_number l = true /\
    (a' = a \/ (a' = S754_zero false /\ a = S754_zero true)).
Proof.
  intros Ha [-> | [k [-> [Hk Hf]]]].
  - destruct (signbit a) eqn:S; cbn.
    + exists (VFloat (fneg (fabs a))), a. rewrite (fneg_fabs a S). auto 6.
    + assert (N : isnan a = false) by (now destruct a).
      exists (VFloat (fabs a)), a. rewrite (fabs_positive a S N). auto 6.
  - assert (Hinf : isinf (fabs a) = false) by (now destruct a).
    destruct (signbit a) eqn:S; cbn.
    + destruct k as [| p | p]; [| | lia].
      * exists (VInt 0), (S754_zero false). cbn. repeat split; auto.
        right. split; [reflexivity |].
        destruct a as [s | s | | s m e]; try discriminate. now destruct s.
      * exists (VInt (Zneg p)), a. cbn. unfold PyLong_AsDouble.
        rewrite float_of_Z_opp, Hf, (fneg_fabs a S).
        assert (Hi : isinf a = false) by (now destruct a).
        rewrite Hi. cbn. auto 6.
    + assert (N : isnan a = false) by (now destruct a).
      exists (VInt k), a. cbn. unfold PyLong_AsDouble.
      rewrite Hf, Hinf. cbn. rewrite (fabs_positive a S N). auto 6.
Qed.

(** The walk of the tree of the text of a finite number returns that
    number: the very same when it is not complex, an equal one when it
    is. *)
Lemma walk_text_tree (P : platform) (v : value) (tree : AST) :
  is_finite_number v = true ->
  text_tree v tree ->
  exists w,
    run P (_eval tree) = Return w /\
    same_number w v = true /\
    (is_complex v = false -> w = v) /\
    is_complex w = is_complex v.
Proof.
  intros Hv Ht. destruct v as [n | t | x | [a b] | s | s | |];
    try discriminate; cbn [text_tree] in Ht.
  - subst tree. exists (VInt n). repeat split; [| apply Z.eqb_refl].
    destruct (Z.ltb_spec n 0); cbn; do 2 f_equal; lia.
  - subst tree. exists (VBool t). repeat split. now destruct t.
  - subst tree. cbn in Hv. exists (VFloat x).
    repeat split; [| now apply feqb_refl].
    assert (N : isnan x = false) by (now destruct x).
    destruct (signbit x) eqn:S; cbn.
    + now rewrite (fneg_fabs x S).
    + now rewrite (fabs_positive x S N).
  - cbn in Hv. apply andb_true_iff in Hv as [Ha Hb].
    cbn [real imag] in Ht.
    destruct (feqb_zero_sum b Hb) as [_ [_ [Hb1 Hb2]]].
    assert (Nb : isnan b = false) by (now destruct b).
    assert (Himag : forall (L : AST) (l : value) (a' : float),
               run P (_eval L) = Return l ->
               is_complex l = false -> is_number l = true ->
               run P (TO_COMPLEX match as_number l with
                                 | Some n => n
                                 | None => NInt 0
                                 end) = Return (Complex a' float_zero) ->
               (a' = a \/ (a' = S754_zero false /\ a = S754_zero true)) ->
               exists w,
                 run P (_eval
                          (BinOp L (if signbit b then Sub else Add)
                             (Constant
                                (VComplex (Complex float_zero (fabs b))))))
                 = Return w /\
                 same_number w (VComplex (Complex a b)) = true /\
                 is_complex w = true).
    { intros L l a' HL Hc Hn Hl Ha'.
      destruct (feqb_zero_sum a Ha) as [Ha1 [Ha2 _]].
      cbn [_eval]. rewrite run_bind, HL. cbn [_eval isinstance_Num bind run].
      destruct (signbit b) eqn:S;
        cbn [lookup _ALLOWED_OPERATORS op_type_beq operator_beq call2];
        unfold op_add, op_sub, binary_op;
        destruct l as [k | t | y | c | s | s | |]; try discriminate;
        cbn [as_number] in *; rewrite run_bind, Hl;
        cbn [TO_COMPLEX bind run _Py_c_sum _Py_c_diff real imag];
        eexists; (split; [reflexivity |]); (split; [| reflexivity]);
        cbn [same_number real imag]; apply andb_true_iff;
        (split; [destruct Ha' as [-> | [-> ->]]; [assumption | reflexivity] |]).
      all: try (rewrite <- (fneg_fabs b S) at 2; exact Hb2).
      all: rewrite <- (fabs_positive b S Nb) at 2; exact Hb1. }
    destruct a as [[] | sa | | sa ma ea]; try discriminate.
    + destruct Ht as [lit [Hlit ->]].
      destruct (real_part_read P lit (S754_zero true) eq_refl Hlit)
        as [l [a' [HL [Hc [Hl [Hn Ha']]]]]].
      destruct (Himag _ l a' HL Hc Hn Hl Ha') as [w [Hw [Hs Hcw]]].
      exists w. repeat split; auto; discriminate.
    + subst tree. pose proof (feqb_refl b Hb) as Rb.
      destruct (signbit b) eqn:S; cbn [signed].
      * exists (VComplex (Complex (S754_zero true) (fneg (fabs b)))).
        repeat split; try discriminate.
        cbn [same_number real imag]. now rewrite (fneg_fabs b S), Rb.
      * exists (VComplex (Complex float_zero (fabs b))).
        repeat split; try discriminate.
        cbn [same_number real imag]. now rewrite (fabs_positive b S Nb), Rb.
    + destruct Ht as [lit [Hlit ->]].
      destruct (real_part_read P lit (S754_finite sa ma ea) eq_refl Hlit)
        as [l [a' [HL [Hc [Hl [Hn Ha']]]]]].
      destruct (Himag _ l a' HL Hc Hn Hl Ha') as [w [Hw [Hs Hcw]]].
      exists w. repeat split; auto; discriminate.
Qed.

(** C7, as amended.  Let [safe_eval] return a finite number [v] (an
    int, a bool, a float that is neither infinite nor NaN, or a complex
    number of two such parts), let [str] return its text (it raises on an
    int that has more digits than the limit of the interpreter), and let
    the parser read that text as Python's [ast.parse] reads what Python's
    [str] writes.  Then evaluating the text returns a number equal to
    [v], and [v] itself unless it is complex.  The reference parser reads
    in that way the text that [str] returns for an int, and the text of
    a bool. *)
Theorem C7_finite_results_are_stable :
  (forall (P : platform) (parse : string -> option AST) (expr : string)
          (v : value) (text : string),
      run P (safe_eval parse expr) = Return v ->
      is_finite_number v = true ->
      run P (str v) = Return text ->
      reads_back parse text v ->
      exists w,
        run P (safe_eval parse text) = Return w /\
        same_number w v = true /\
        (is_complex v = false -> w = v)) /\
  (forall (P : platform) (n : Z) (text : string),
      run P (str (VInt n)) = Return text ->
      reads_back ast_parse text (VInt n)) /\
  (forall b : bool,
      reads_back ast_parse (if b then "True" else "False") (VBool b)).
Proof.
  split; [| split].
  - intros P parse expr v text Hv Hfin _ [tree [Hp Ht]].
    destruct (walk_text_tree P v tree Hfin Ht) as [w [Hw [Hs [He Hc]]]].
    unfold safe_eval. rewrite Hp, run_bind.
    change (_eval (Expression tree)) with (_eval tree).
    rewrite Hw, display_spec. destruct (is_complex v) eqn:C.
    + destruct w; try discriminate. eexists. repeat split; auto; discriminate.
    + specialize (He eq_refl). subst w.
      destruct v as [n | t | x | c | u | u | |]; try discriminate;
        rewrite ?(float_result_has_fraction P parse expr x Hv);
        eexists; repeat split; assumption.
  - intros P n text H. rewrite (str_int_text P n text H).
    eexists. rewrite replace_str_int, ast_parse_str_int.
    split; reflexivity.
  - intros []; eexists; split; reflexivity.
Qed.

(** ["2+3"] gives 5, whose text ["5"] gives 5; ["10/4"] gives 2.5, whose
    text ["2.5"] gives 2.5. *)
Lemma C7_five_and_two_and_a_half_witness :
  run quiet_platform (safe_eval ast_parse "2+3") = Return (VInt 5) /\
  run quiet_platform (str (VInt 5)) = Return "5" /\
  run quiet_platform (safe_eval ast_parse "5") = Return (VInt 5) /\
  run (answering "2.5") (safe_eval ast_parse "10/4") =
    Return (VFloat float_2_5) /\
  run (answering "2.5") (str (VFloat float_2_5)) = Return "2.5" /\
  reads_back ast_parse "2.5" (VFloat float_2_5) /\
  run (answering "2.5") (safe_eval ast_parse "2.5") = Return (VFloat float_2_5).
Proof.
  assert (H1 : run quiet_platform (safe_eval ast_parse "2+3") = Return (VInt 5))
    by (vm_compute; reflexivity).
  assert (H2 : run quiet_platform (str (VInt 5)) = Return "5")
    by (vm_compute; reflexivity).
  assert (H3 : run (answering "2.5") (safe_eval ast_parse "10/4") =
               Return (VFloat float_2_5)) by (vm_compute; reflexivity).
  assert (H4 : run (answering "2.5") (str (VFloat float_2_5)) = Return "2.5")
    by reflexivity.
  assert (H5 : reads_back ast_parse "2.5" (VFloat float_2_5)).
  { eexists. split; [vm_compute; reflexivity | reflexivity]. }
  split; [exact H1 |]. split; [exact H2 |]. split.
  { destruct (proj1 C7_finite_results_are_stable quiet_platform ast_parse
                "2+3" (VInt 5) "5" H1 eq_refl H2
                (proj1 (proj2 C7_finite_results_are_stable)
                   quiet_platform 5 "5" H2))
      as [w [Hw [_ He]]].
    now rewrite Hw, (He eq_refl). }
  split; [exact H3 |]. split; [exact H4 |]. split; [exact H5 |].
  destruct (proj1 C7_finite_results_are_stable (answering "2.5") ast_parse
              "10/4" (VFloat float_2_5) "2.5" H3 eq_refl H4 H5)
    as [w [Hw [_ He]]].
  now rewrite Hw, (He eq_refl).
Defined.

(** C7 as stated fails on ["10**308*10."]: the product overflows to
    the float [inf], whose text ["inf"] parses to a name, which [_eval]
    refuses.  It fails in the same way on a NaN, the difference of two
    such products, and on a complex number with an infinite part, the
    product of [(-8)**.5] by the float [inf].  It fails on ["10^4300"]
    too, an int of 4301 digits, where the interpreter's limit is the
    default: [str] raises. *)
Lemma C7_infinity_counterexample :
  safe_eval ast_parse "10**308*10." = Ret (VFloat (S754_infinity false)) /\
  str (VFloat (S754_infinity false)) = Ret "inf" /\
  ast_parse "inf" = Some (Expression (Name "inf")) /\
  (v <- safe_eval ast_parse "10**308*10.";;
   text <- str v;;
   safe_eval ast_parse text) =
  Throw (ValueError "Unsupported expression: <class 'ast.Name'>") /\
  run quiet_platform (v <- safe_eval ast_parse "10^4300";; str v) =
  Raise (ValueError
           ("Exceeds the limit (4300 digits) for integer string conversion; "
            ++ "use sys.set_int_max_str_digits() to increase the limit")) /\
  safe_eval ast_parse "10**308*10.-10**308*10." = Ret (VFloat S754_nan) /\
  (v <- safe_eval ast_parse "10**308*10.-10**308*10.";;
   text <- str v;;
   safe_eval ast_parse text) =
  Throw (ValueError "Unsupported expression: <class 'ast.Name'>") /\
  run infinite_complex_platform (safe_eval ast_parse "(-8)**.5*(10**308*10.)") =
  Return (VComplex (Complex (S754_infinity false) (S754_infinity false))) /\
  run infinite_complex_platform
      (v <- safe_eval ast_parse "(-8)**.5*(10**308*10.)";;
       text <- str v;;
       safe_eval ast_parse text) =
  Raise (ValueError "Unsupported expression: <class 'ast.Name'>").
Proof.
  do 8 (split; [vm_compute; reflexivity |]). vm_compute. reflexivity.
Qed.

(** ** Literals *)

(** C8, at the inputs where the code departs from it.  A literal that is
    an int or a float evaluates to its value, and one that is a string,
    a bytes object, [None] or [...] fails with [UnsupportedLiteral]; but
    the bool literals pass the test [isinstance(node.value, (int, float))]
    and the complex literals pass [isinstance(node, ast.Num)], so ["True"]
    evaluates to [True] and [1j] to [1j]. *)
Theorem C8_bool_and_complex_literals_are_returned :
  (forall n, _eval (Constant (VInt n)) = Ret (VInt n)) /\
  (forall x, _eval (Constant (VFloat x)) = Ret (VFloat x)) /\
  (forall s, _eval (Constant (VStr s)) =
             Throw (ValueError "Constants other than numbers not allowed")) /\
  (forall s, _eval (Constant (VBytes s)) =
             Throw (ValueError "Constants other than numbers not allowed")) /\
  _eval (Constant VNone) =
    Throw (ValueError "Constants other than numbers not allowed") /\
  _eval (Constant VEllipsis) =
    Throw (ValueError "Constants other than numbers not allowed") /\
  failure_of (ValueError "Constants other than numbers not allowed") =
    Some UnsupportedLiteral /\
  ast_parse "True" = Some (Expression (Constant (VBool true))) /\
  safe_eval ast_parse "True" = Ret (VBool true) /\
  (forall b, _eval (Constant (VBool b)) = Ret (VBool b)) /\
  (forall c, _eval (Constant (VComplex c)) = Ret (VComplex c)).
Proof. repeat split; reflexivity. Qed.

(** ** The confirm handler *)

(** C9, as amended.  When the buffer is not blank, the handler gives
    [safe_eval] the buffer stripped of surrounding whitespace, and sets the
    buffer to the text of the result if [safe_eval] returns and [str]
    gives that text, to ["Error"] if [safe_eval] raises or if [str] does
    (as it does on an int with more digits than the interpreter's
    limit). *)
Theorem C9_confirm_replaces_buffer
    (P : platform) (parse : string -> option AST) (self : Calculator.t) :
  strip (Calculator._expr self) <> "" ->
  match run P (safe_eval parse (strip (Calculator._expr self))) with
  | Return v =>
      match run P (str v) with
      | Return text =>
          run P (Calculator.evaluate parse self) =
            Return {| Calculator._expr := text |}
      | Raise _ =>
          run P (Calculator.evaluate parse self) =
            Return {| Calculator._expr := "Error" |}
      end
  | Raise _ =>
      run P (Calculator.evaluate parse self) =
        Return {| Calculator._expr := "Error" |}
  end.
Proof.
  intros Hne. apply String.eqb_neq in Hne.
  unfold Calculator.evaluate. rewrite Hne, run_try_except, run_bind.
  destruct (run P (safe_eval parse _)) as [v | e]; [| reflexivity].
  rewrite run_bind. destruct (run P (str v)); reflexivity.
Qed.

(** With ["2+3*4"] in the buffer, the buffer becomes the text of 14. *)
Lemma C9_buffer_witness :
  strip "2+3*4" <> "" /\
  run quiet_platform (safe_eval ast_parse (strip "2+3*4")) = Return (VInt 14) /\
  run quiet_platform (str (VInt 14)) = Return "14" /\
  run quiet_platform
      (Calculator.evaluate ast_parse {| Calculator._expr := "2+3*4" |}) =
    Return {| Calculator._expr := "14" |}.
Proof.
  assert (H : strip "2+3*4" <> "") by discriminate.
  split; [exact H |]. split; [reflexivity |]. split; [reflexivity |].
  exact (C9_confirm_replaces_buffer quiet_platform ast_parse
           {| Calculator._expr := "2+3*4" |} H).
Defined.

(** C9 as stated fails on the empty buffer: [safe_eval] raises on the
    empty string, yet the handler leaves the buffer empty instead of
    setting it to ["Error"]. *)
Lemma C9_empty_buffer_counterexample :
  Calculator.evaluate ast_parse {| Calculator._expr := "" |} =
    Ret {| Calculator._expr := "" |} /\
  safe_eval ast_parse "" = Throw (ValueError "Syntax error").
Proof. split; reflexivity. Qed.

(** C10.  On a blank buffer the handler returns at once with the state
    unchanged, whatever the parser: the evaluator is not called.
    Otherwise whatever exception [safe_eval] raises, [TypeError] included,
    is caught and the buffer is set to ["Error"].  In every case the
    handler returns: it raises nothing. *)
Theorem C10_confirm_never_raises
    (P : platform) (parse : string -> option AST) (self : Calculator.t) :
  (strip (Calculator._expr self) = "" ->
   Calculator.evaluate parse self = Ret self) /\
  (strip (Calculator._expr self) <> "" ->
   forall e,
     run P (safe_eval parse (strip (Calculator._expr self))) = Raise e ->
     run P (Calculator.evaluate parse self) =
       Return {| Calculator._expr := "Error" |}) /\
  (exists self', run P (Calculator.evaluate parse self) = Return self').
Proof.
  unfold Calculator.evaluate. repeat split.
  - intros ->. reflexivity.
  - intros Hne e He. apply String.eqb_neq in Hne.
    now rewrite Hne, run_try_except, run_bind, He.
  - destruct (String.eqb_spec (strip (Calculator._expr self)) "") as [E | E];
      [eexists; reflexivity |].
    rewrite run_try_except, run_bind.
    destruct (run P (safe_eval parse _)) as [v | e]; [| eexists; reflexivity].
    rewrite run_bind. destruct (run P (str v)); eexists; reflexivity.
Qed.

(** A blank buffer, and a buffer on which [safe_eval] raises. *)
Lemma C10_blank_and_error_witness :
  strip "  " = "" /\
  Calculator.evaluate ast_parse {| Calculator._expr := "  " |} =
    Ret {| Calculator._expr := "  " |} /\
  strip "2+" <> "" /\
  run quiet_platform (safe_eval ast_parse (strip "2+")) =
    Raise (ValueError "Syntax error") /\
  run quiet_platform (Calculator.evaluate ast_parse {| Calculator._expr := "2+" |}) =
    Return {| Calculator._expr := "Error" |}.
Proof.
  assert (H1 : strip "  " = "") by reflexivity.
  assert (H2 : strip "2+" <> "") by discriminate.
  assert (H3 : run quiet_platform (safe_eval ast_parse (strip "2+")) =
               Raise (ValueError "Syntax error")) by reflexivity.
  split; [exact H1 |]. split.
  { exact (proj1 (C10_confirm_never_raises quiet_platform ast_parse
                    {| Calculator._expr := "  " |}) H1). }
  split; [exact H2 |]. split; [exact H3 |].
  exact (proj1 (proj2 (C10_confirm_never_raises quiet_platform ast_parse
                    {| Calculator._expr := "2+" |})) H2 _ H3).
Defined.

(** * Further properties of the evaluator *)

(** ** Operators outside the table *)

(** X1.  An operator that is not a key of [_ALLOWED_OPERATORS] is
    refused once its operands have been evaluated: when both operands of
    a [BinOp] return, [_eval] raises [ValueError] with the message
    [Unsupported binary operator: <class 'ast.X'>] for the class [X] of
    the operator, and likewise [Unsupported unary operator: ...] for a
    [UnaryOp]; both messages are of kind [UnsupportedOperator]. *)
Theorem X1_operator_outside_table_is_refused (P : platform) :
  (forall (l r : AST) (op : operator) (a b : value),
      lookup _ALLOWED_OPERATORS (operator_type op) = None ->
      run P (_eval l) = Return a ->
      run P (_eval r) = Return b ->
      run P (_eval (BinOp l op r)) =
        Raise (ValueError ("Unsupported binary operator: <class 'ast."
                           ++ operator_name op ++ "'>"))) /\
  (forall (x : AST) (op : unaryop) (a : value),
      lookup _ALLOWED_OPERATORS (unaryop_type op) = None ->
      run P (_eval x) = Return a ->
      run P (_eval (UnaryOp op x)) =
        Raise (ValueError ("Unsupported unary operator: <class 'ast."
                           ++ unaryop_name op ++ "'>"))) /\
  (forall op : operator,
      failure_of (ValueError ("Unsupported binary operator: <class 'ast."
                              ++ operator_name op ++ "'>")) =
      Some UnsupportedOperator) /\
  (forall op : unaryop,
      failure_of (ValueError ("Unsupported unary operator: <class 'ast."
                              ++ unaryop_name op ++ "'>")) =
      Some UnsupportedOperator).
Proof.
  repeat split.
  - intros l r op a b Hop Ha Hb. cbn [_eval].
    rewrite run_bind, Ha, run_bind, Hb, Hop. reflexivity.
  - intros x op a Hop Ha. cbn [_eval].
    rewrite run_bind, Ha, Hop. reflexivity.
Qed.

(** The keys can write [//]: ["7//2"] is refused as [FloorDiv]. *)
Lemma X1_floor_division_witness :
  ast_parse "7//2" =
    Some (Expression (BinOp (Constant (VInt 7)) FloorDiv (Constant (VInt 2)))) /\
  run quiet_platform (safe_eval ast_parse "7//2") =
    Raise (ValueError "Unsupported binary operator: <class 'ast.FloorDiv'>") /\
  run quiet_platform
      (_eval (BinOp (Constant (VInt 7)) FloorDiv (Constant (VInt 2)))) =
    Raise (ValueError "Unsupported binary operator: <class 'ast.FloorDiv'>") /\
  run quiet_platform (_eval (UnaryOp Invert (Constant (VInt 7)))) =
    Raise (ValueError "Unsupported unary operator: <class 'ast.Invert'>").
Proof.
  split; [vm_compute; reflexivity |]. split; [vm_compute; reflexivity |].
  split.
  - exact (proj1 (X1_operator_outside_table_is_refused quiet_platform)
             (Constant (VInt 7)) (Constant (VInt 2)) FloorDiv (VInt 7) (VInt 2)
             eq_refl eq_refl eq_refl).
  - exact (proj1 (proj2 (X1_operator_outside_table_is_refused quiet_platform))
             (Constant (VInt 7)) Invert (VInt 7) eq_refl eq_refl).
Defined.

(** X2.  The exception of a tree is the first exception its walk meets,
    unchanged: that of the left operand whatever the operator and the
    right operand are, that of the right operand when the left one
    returns, that of the operand of a [UnaryOp]; the operator is looked up
    only when the operands have returned.  [safe_eval] passes the
    exception of [_eval] on as it is. *)
Theorem X2_the_first_failure_is_the_failure_of_the_whole (P : platform) :
  (forall (l r : AST) (op : operator) (e : exn),
      run P (_eval l) = Raise e ->
      run P (_eval (BinOp l op r)) = Raise e) /\
  (forall (l r : AST) (op : operator) (a : value) (e : exn),
      run P (_eval l) = Return a ->
      run P (_eval r) = Raise e ->
      run P (_eval (BinOp l op r)) = Raise e) /\
  (forall (x : AST) (op : unaryop) (e : exn),
      run P (_eval x) = Raise e ->
      run P (_eval (UnaryOp op x)) = Raise e) /\
  (forall (parse : string -> option AST) (expr : string) (c : context)
          (node : AST) (e : exn),
      parse (replace "^" "**" expr) = Some (plug c node) ->
      reaches P c = true ->
      run P (_eval node) = Raise e ->
      run P (safe_eval parse expr) = Raise e).
Proof.
  repeat split.
  - intros l r op e Hl. cbn [_eval]. now rewrite run_bind, Hl.
  - intros l r op a e Hl Hr. cbn [_eval].
    now rewrite run_bind, Hl, run_bind, Hr.
  - intros x op e Hx. cbn [_eval]. now rewrite run_bind, Hx.
  - intros parse expr c node e Hparse Hc He. unfold safe_eval.
    now rewrite Hparse, run_bind, (raise_propagates P c node e Hc He).
Qed.

(** In ["5/0//2"] the division by zero is reported, not the operator
    [//] that the table does not hold. *)
Lemma X2_zero_division_first_witness :
  ast_parse (replace "^" "**" "5/0//2") =
    Some (plug (InExpression (InLeft Hole FloorDiv (Constant (VInt 2))))
               (BinOp (Constant (VInt 5)) Div (Constant (VInt 0)))) /\
  run quiet_platform
      (_eval (BinOp (Constant (VInt 5)) Div (Constant (VInt 0)))) =
    Raise ZeroDivisionError /\
  run quiet_platform (safe_eval ast_parse "5/0//2") = Raise ZeroDivisionError /\
  run quiet_platform
      (_eval (BinOp (BinOp (Constant (VInt 5)) Div (Constant (VInt 0)))
                    FloorDiv (Constant (VInt 2)))) =
    Raise ZeroDivisionError.
Proof.
  assert (Hp : ast_parse (replace "^" "**" "5/0//2") =
    Some (plug (InExpression (InLeft Hole FloorDiv (Constant (VInt 2))))
               (BinOp (Constant (VInt 5)) Div (Constant (VInt 0)))))
    by (vm_compute; reflexivity).
  assert (He : run quiet_platform
                 (_eval (BinOp (Constant (VInt 5)) Div (Constant (VInt 0)))) =
               Raise ZeroDivisionError) by reflexivity.
  split; [exact Hp |]. split; [exact He |]. split.
  - exact (proj2 (proj2 (proj2
             (X2_the_first_failure_is_the_failure_of_the_whole quiet_platform)))
             ast_parse "5/0//2" _ _ _ Hp eq_refl He).
  - exact (proj1 (X2_the_first_failure_is_the_failure_of_the_whole
                    quiet_platform) _ (Constant (VInt 2)) FloorDiv _ He).
Defined.

(** X3.  The table maps the class of a binary operator to a function of
    two arguments and the class of a unary operator to a function of one
    argument, so a call through the table never fails on the number of
    arguments; the binary operators it does not hold are [@], [<<], [>>],
    [|], [^], [&] and [//], the unary ones [~] and [not]. *)
Theorem X3_table_arity :
  (forall op f, lookup _ALLOWED_OPERATORS (operator_type op) = Some f ->
                exists g, f = binary g) /\
  (forall op f, lookup _ALLOWED_OPERATORS (unaryop_type op) = Some f ->
                exists g, f = unary g) /\
  (forall op, lookup _ALLOWED_OPERATORS (operator_type op) = None <->
              In op [MatMult; LShift; RShift; BitOr; BitXor; BitAnd; FloorDiv]) /\
  (forall op, lookup _ALLOWED_OPERATORS (unaryop_type op) = None <->
              In op [Invert; Not]).
Proof.
  repeat split.
  - intros [] f [= <-]; eauto.
  - intros [] f [= <-]; eauto.
  - destruct op; simpl; intros; try discriminate; tauto.
  - destruct op; simpl; intros H; try reflexivity;
      repeat (destruct H as [H | H]; try discriminate); contradiction.
  - destruct op; simpl; intros; try discriminate; tauto.
  - destruct op; simpl; intros H; try reflexivity;
      repeat (destruct H as [H | H]; try discriminate); contradiction.
Qed.

(** [+] is in the table, [//] is not. *)
Lemma X3_addition_witness :
  lookup _ALLOWED_OPERATORS (operator_type Add) = Some (binary op_add) /\
  (exists g, binary op_add = binary g) /\
  lookup _ALLOWED_OPERATORS (operator_type FloorDiv) = None.
Proof.
  split; [reflexivity |]. split.
  - exact (proj1 X3_table_arity Add (binary op_add) eq_refl).
  - apply (proj1 (proj2 (proj2 X3_table_arity)) FloorDiv).
    cbn. tauto.
Defined.

(** ** Integer arithmetic *)

Lemma _eval_integer_value (node : AST) (n : Z) :
  integer_value node = Some n -> _eval node = Ret (VInt n).
Proof.
  revert n.
  induction node as [body IH | l IHl op r IHr | op operand IH | v
                     | func args keywords | id | obj IH attr | obj IH
                     | elts | cls]; intros n H; try discriminate.
  - apply IH, H.
  - cbn [integer_value] in H.
    destruct (integer_value l) as [a |]; [| discriminate].
    destruct (integer_value r) as [b |]; [| discriminate].
    cbn [_eval]. rewrite (IHl a eq_refl), (IHr b eq_refl). cbn [bind].
    destruct op; try discriminate;
      cbn [lookup _ALLOWED_OPERATORS op_type_beq operator_beq call2].
    + injection H as <-. reflexivity.
    + injection H as <-. reflexivity.
    + injection H as <-. reflexivity.
    + unfold op_mod, binary_op, long_mod. cbn [as_number].
      destruct (b =? 0); [discriminate |]. injection H as <-. reflexivity.
    + unfold op_pow, binary_op, long_pow. cbn [as_number].
      destruct (b <? 0); [discriminate |]. injection H as <-. reflexivity.
  - cbn [integer_value] in H. destruct op; try discriminate.
    + cbn [_eval]. rewrite (IH n H). reflexivity.
    + destruct (integer_value operand) as [a |]; [| discriminate].
      injection H as <-. cbn [_eval]. rewrite (IH a eq_refl). reflexivity.
  - destruct v; try discriminate. injection H as <-. reflexivity.
Qed.

(** X4.  On an expression made of int literals, unary and binary [+] and
    [-], [*], [%] with a divisor that is not zero and [**] with an
    exponent that is not negative, [safe_eval] returns the exact integer
    the expression denotes: it raises nothing, asks the platform nothing
    and never goes through a float, however large the numbers. *)
Theorem X4_integer_arithmetic_is_exact
    (parse : string -> option AST) (expr : string) (node : AST) (n : Z) :
  parse (replace "^" "**" expr) = Some node ->
  integer_value node = Some n ->
  safe_eval parse expr = Ret (VInt n).
Proof.
  intros Hparse Hn. unfold safe_eval.
  rewrite Hparse, (_eval_integer_value node n Hn). reflexivity.
Qed.

(** ["-7%3+2^100"]: the remainder is 2, as the divisor is positive, and
    the power keeps all its digits. *)
Lemma X4_big_power_witness :
  ast_parse (replace "^" "**" "-7%3+2^100") =
    Some (Expression
            (BinOp (BinOp (UnaryOp USub (Constant (VInt 7))) Mod
                          (Constant (VInt 3)))
                   Add
                   (BinOp (Constant (VInt 2)) Pow (Constant (VInt 100))))) /\
  safe_eval ast_parse "-7%3+2^100" = Ret (VInt 1267650600228229401496703205378).
Proof.
  assert (H : ast_parse (replace "^" "**" "-7%3+2^100") =
    Some (Expression
            (BinOp (BinOp (UnaryOp USub (Constant (VInt 7))) Mod
                          (Constant (VInt 3)))
                   Add
                   (BinOp (Constant (VInt 2)) Pow (Constant (VInt 100))))))
    by (vm_compute; reflexivity).
  split; [exact H |].
  exact (X4_integer_arithmetic_is_exact ast_parse "-7%3+2^100" _ _ H eq_refl).
Defined.

(** ** Where [TypeError], complex numbers and bools come from *)

(** The outcomes of a binary operator, case by case: [TypeError] needs an
    operand that is no number, or a complex operand and no complex slot;
    the complex slot needs a complex operand. *)
Lemma binary_op_cases (P : platform) (Q : result value -> Prop)
    long_op float_op complex_op (v w : value) :
  Q (Raise OverflowError) ->
  (is_number v && is_number w = false \/
   (complex_op = None /\ is_complex v || is_complex w = true) ->
   Q (Raise TypeError)) ->
  (forall a b, Q (run P (long_op a b))) ->
  (forall x y, Q (run P (float_op x y))) ->
  (is_complex v || is_complex w = true ->
   forall f x y, complex_op = Some f -> Q (run P (f x y))) ->
  Q (run P (binary_op long_op float_op complex_op v w)).
Proof.
  intros Ho Ht Hl Hf Hc.
  assert (Hdouble : forall n (k : float -> comp value),
             (forall x, Q (run P (k x))) ->
             Q (run P (x <- PyLong_AsDouble n;; k x))).
  { intros n k Hk. rewrite run_bind.
    destruct (run_PyLong_AsDouble P n) as [-> | [x ->]]; auto. }
  assert (Hcomplex : forall a b,
             is_complex v || is_complex w = true ->
             Q (run P (match complex_op with
                       | Some f => x <- TO_COMPLEX a;; y <- TO_COMPLEX b;; f x y
                       | None => Throw TypeError
                       end))).
  { intros a b Hvw. destruct complex_op as [f |]; [| now apply Ht; right].
    assert (Hc' : forall x y, Q (run P (f x y))) by (intros; now apply Hc).
    assert (Hb : forall x, Q (run P (y <- TO_COMPLEX b;; f x y))).
    { intros x. destruct b as [n | y | c]; cbn [TO_COMPLEX bind]; auto.
      rewrite !run_bind.
      destruct (run_PyLong_AsDouble P n) as [-> | [y ->]]; cbn; auto. }
    destruct a as [n | x | c]; cbn [TO_COMPLEX]; try apply Hb.
    rewrite !run_bind.
    destruct (run_PyLong_AsDouble P n) as [-> | [x ->]]; cbn [run]; auto. }
  unfold binary_op.
  destruct v as [n | t | x | c | s | s | |], w as [m | u | y | d | s' | s' | |];
    cbn [as_number];
    try (apply Ht; left; reflexivity);
    try apply Hl;
    try (apply Hcomplex; reflexivity);
    cbn [CONVERT_TO_DOUBLE]; cbn [bind]; try apply Hf;
    try (apply Hdouble; intros; cbn [bind]; try apply Hf; apply Hdouble; intros; apply Hf).
Qed.

Ltac outcome :=
  first [ reflexivity | exact I | left; reflexivity | right; reflexivity ].

Lemma complex_pow_operator (P : platform) (a b : complex) :
  operator_result (run P (complex_pow a b)).
Proof.
  unfold complex_pow. simpl. destruct (P _ _); simpl; repeat break_if; outcome.
Qed.

Lemma float_pow_operator (P : platform) (iv iw : float) :
  operator_result (run P (float_pow iv iw)).
Proof.
  unfold float_pow, complex_pow.
  repeat break_if; simpl; try outcome;
    destruct (P _ _); simpl; repeat break_if; outcome.
Qed.

Lemma long_pow_operator (P : platform) (a b : Z) :
  operator_result (run P (long_pow a b)).
Proof.
  unfold long_pow. destruct (b <? 0); [| reflexivity].
  rewrite run_bind.
  destruct (run_PyLong_AsDouble P a) as [-> | [x ->]]; [outcome |].
  rewrite run_bind.
  destruct (run_PyLong_AsDouble P b) as [-> | [y ->]]; [outcome |].
  apply float_pow_operator.
Qed.

(** An operator of the table other than [%], applied to numbers, returns
    a number or raises [ZeroDivisionError] or [OverflowError]. *)
Lemma call2_operator (P : platform) (op : operator) (f : builtin) (v w : value) :
  lookup _ALLOWED_OPERATORS (operator_type op) = Some f ->
  op <> Mod ->
  is_number v = true -> is_number w = true ->
  operator_result (run P (call2 f v w)).
Proof.
  intros Hf Hop Hv Hw.
  destruct op; try discriminate; try congruence; injection Hf as <-;
    cbn [call2]; unfold op_add, op_sub, op_mul, op_truediv, op_pow;
    apply (binary_op_cases P operator_result);
    try (right; reflexivity);
    try (rewrite Hv, Hw; intros [H | [H _]]; discriminate);
    intros; try (injection H0 as <-); try reflexivity.
  - unfold long_true_divide. repeat break_if; outcome.
  - unfold float_div. break_if; outcome.
  - unfold complex_div. destruct (_Py_c_quot x y); outcome.
  - apply long_pow_operator.
  - apply float_pow_operator.
  - apply complex_pow_operator.
Qed.

Lemma operator_typed (r : result value) : operator_result r -> typed_result r.
Proof.
  destruct r as [v | e]; simpl; auto.
  intros [-> | ->]; eexists; reflexivity.
Qed.

(** A unary operator of the table, applied to a number, returns a number
    that is no bool, and complex only if its operand is. *)
Lemma call1_operator (P : platform) (op : unaryop) (f : builtin) (v : value) :
  lookup _ALLOWED_OPERATORS (unaryop_type op) = Some f ->
  is_number v = true ->
  exists w, call1 f v = Ret w /\ is_number w = true /\
            is_complex w = is_complex v /\
            match w with VBool _ => False | _ => True end.
Proof.
  intros Hf Hv. destruct op; try discriminate; injection Hf as <-;
    destruct v; try discriminate; cbn; eauto.
Qed.

Lemma _eval_typed (P : platform) (node : AST) :
  has_operator Mod node = false -> typed_result (run P (_eval node)).
Proof.
  induction node as [body IH | l IHl op r IHr | op operand IH | v
                     | func args keywords | id | obj IH attr | obj IH
                     | elts | cls]; intros H;
    try (simpl; eexists; reflexivity).
  - apply IH, H.
  - cbn [has_operator] in H.
    apply orb_false_iff in H as [H Hr]. apply orb_false_iff in H as [Hop Hl].
    specialize (IHl Hl). specialize (IHr Hr).
    cbn [_eval]. rewrite run_bind.
    destruct (run P (_eval l)) as [a | e]; [| exact IHl].
    rewrite run_bind.
    destruct (run P (_eval r)) as [b | e]; [| exact IHr].
    destruct (lookup _ALLOWED_OPERATORS (operator_type op)) as [f |] eqn:Hf.
    + apply operator_typed, (call2_operator P op); auto.
      intros ->. discriminate.
    + destruct op; eexists; reflexivity.
  - cbn [has_operator] in H. specialize (IH H).
    cbn [_eval]. rewrite run_bind.
    destruct (run P (_eval operand)) as [a | e]; [| exact IH].
    destruct (lookup _ALLOWED_OPERATORS (unaryop_type op)) as [f |] eqn:Hf.
    + destruct (call1_operator P op f a Hf IH) as [w [-> [Hw _]]]. exact Hw.
    + destruct op; eexists; reflexivity.
  - destruct v; try reflexivity; simpl; eexists; reflexivity.
Qed.

(** X5.  When the parsed input holds no [%] where the walk goes,
    [safe_eval] returns a number or fails with one of the five kinds of
    failure: [TypeError] can only come from [%]. *)
Theorem X5_without_modulo_every_failure_is_typed
    (P : platform) (parse : string -> option AST) (expr : string) :
  (forall node, parse (replace "^" "**" expr) = Some node ->
                has_operator Mod node = false) ->
  match run P (safe_eval parse expr) with
  | Return v => is_number v = true
  | Raise e => exists k, failure_of e = Some k
  end.
Proof.
  intros H. unfold safe_eval.
  destruct (parse _) as [node |]; [| simpl; eexists; reflexivity].
  rewrite run_bind. pose proof (_eval_typed P node (H node eq_refl)) as T.
  destruct (run P (_eval node)) as [v | e]; [| exact T].
  rewrite display_spec. simpl.
  destruct v; auto. destruct (float_is_integer x); auto.
Qed.

(** ["(-8)^.5"] holds no [%]. *)
Lemma X5_power_witness :
  (forall node, ast_parse (replace "^" "**" "(-8)^.5") = Some node ->
                has_operator Mod node = false) /\
  match run quiet_platform (safe_eval ast_parse "(-8)^.5") with
  | Return v => is_number v = true
  | Raise e => exists k, failure_of e = Some k
  end.
Proof.
  assert (H : forall node, ast_parse (replace "^" "**" "(-8)^.5") = Some node ->
                           has_operator Mod node = false).
  { intros node. vm_compute. intros [= <-]. reflexivity. }
  split; [exact H |].
  exact (X5_without_modulo_every_failure_is_typed quiet_platform ast_parse
           "(-8)^.5" H).
Defined.

(** An operator of the table other than [**], applied to numbers that are
    not complex, returns such a number or raises [ZeroDivisionError] or
    [OverflowError]. *)
Lemma call2_real (P : platform) (op : operator) (f : builtin) (v w : value) :
  lookup _ALLOWED_OPERATORS (operator_type op) = Some f ->
  op <> Pow ->
  is_real v = true -> is_real w = true ->
  real_operator_result (run P (call2 f v w)).
Proof.
  unfold is_real. intros Hf Hop Hv Hw.
  apply andb_true_iff in Hv as [Hv Hcv]. apply negb_true_iff in Hcv.
  apply andb_true_iff in Hw as [Hw Hcw]. apply negb_true_iff in Hcw.
  destruct op; try discriminate; try congruence; injection Hf as <-;
    cbn [call2]; unfold op_add, op_sub, op_mul, op_truediv, op_mod;
    apply (binary_op_cases P real_operator_result);
    try (right; reflexivity);
    try (rewrite Hv, Hw, Hcv, Hcw; intros [H | [_ H]]; discriminate);
    try (rewrite Hcv, Hcw; discriminate);
    intros; try reflexivity.
  - unfold long_true_divide. repeat break_if; outcome.
  - unfold float_div. break_if; outcome.
  - unfold long_mod. break_if; outcome.
  - unfold float_rem. repeat break_if; outcome.
Qed.

Lemma real_operator_typed (r : result value) :
  real_operator_result r -> real_result r.
Proof.
  destruct r as [v | e]; simpl; auto.
  intros [-> | ->]; eexists; reflexivity.
Qed.

Lemma _eval_real (P : platform) (node : AST) :
  has_operator Pow node = false -> has_complex_literal node = false ->
  real_result (run P (_eval node)).
Proof.
  induction node as [body IH | l IHl op r IHr | op operand IH | v
                     | func args keywords | id | obj IH attr | obj IH
                     | elts | cls]; intros H C;
    try (simpl; eexists; reflexivity).
  - apply IH; assumption.
  - cbn [has_operator has_complex_literal] in H, C.
    apply orb_false_iff in H as [H Hr]. apply orb_false_iff in H as [Hop Hl].
    apply orb_false_iff in C as [Cl Cr].
    specialize (IHl Hl Cl). specialize (IHr Hr Cr).
    cbn [_eval]. rewrite run_bind.
    destruct (run P (_eval l)) as [a | e]; [| exact IHl].
    rewrite run_bind.
    destruct (run P (_eval r)) as [b | e]; [| exact IHr].
    destruct (lookup _ALLOWED_OPERATORS (operator_type op)) as [f |] eqn:Hf.
    + apply real_operator_typed, (call2_real P op); auto.
      intros ->. discriminate.
    + destruct op; eexists; reflexivity.
  - cbn [has_operator has_complex_literal] in H, C. specialize (IH H C).
    cbn [_eval]. rewrite run_bind.
    destruct (run P (_eval operand)) as [a | e]; [| exact IH].
    destruct (lookup _ALLOWED_OPERATORS (unaryop_type op)) as [f |] eqn:Hf.
    + simpl in IH. unfold is_real in *.
      apply andb_true_iff in IH as [Ha Hc].
      destruct (call1_operator P op f a Hf Ha) as [w [-> [Hw [Hcw _]]]].
      simpl. unfold is_real. now rewrite Hw, Hcw.
    + destruct op; eexists; reflexivity.
  - destruct v; try reflexivity; try discriminate; simpl; eexists; reflexivity.
Qed.

(** X6.  When the parsed input holds neither [**] nor a complex literal
    where the walk goes, [safe_eval] returns an int, a bool or a float,
    never a complex number, or fails with one of the five kinds of
    failure: a complex number can only come from [**] or from a complex
    literal. *)
Theorem X6_without_power_no_complex_number
    (P : platform) (parse : string -> option AST) (expr : string) :
  (forall node, parse (replace "^" "**" expr) = Some node ->
                has_operator Pow node = false /\
                has_complex_literal node = false) ->
  match run P (safe_eval parse expr) with
  | Return v => is_number v = true /\ is_complex v = false
  | Raise e => exists k, failure_of e = Some k
  end.
Proof.
  intros H. unfold safe_eval.
  destruct (parse _) as [node |]; [| simpl; eexists; reflexivity].
  destruct (H node eq_refl) as [Hp Hc].
  rewrite run_bind. pose proof (_eval_real P node Hp Hc) as T.
  destruct (run P (_eval node)) as [v | e]; [| exact T].
  rewrite display_spec. simpl in *. unfold is_real in T.
  apply andb_true_iff in T as [T1 T2]. apply negb_true_iff in T2.
  destruct v; auto. destruct (float_is_integer x); auto.
Qed.

(** ["7.5%2"] holds no [**]. *)
Lemma X6_modulo_witness :
  (forall node, ast_parse (replace "^" "**" "7.5%2") = Some node ->
                has_operator Pow node = false /\
                has_complex_literal node = false) /\
  match run quiet_platform (safe_eval ast_parse "7.5%2") with
  | Return v => is_number v = true /\ is_complex v = false
  | Raise e => exists k, failure_of e = Some k
  end.
Proof.
  assert (H : forall node, ast_parse (replace "^" "**" "7.5%2") = Some node ->
                           has_operator Pow node = false /\
                           has_complex_literal node = false).
  { intros node. vm_compute. intros [= <-]. split; reflexivity. }
  split; [exact H |].
  exact (X6_without_power_no_complex_number quiet_platform ast_parse "7.5%2" H).
Defined.

Lemma float_pow_not_bool (P : platform) (iv iw : float) :
  not_bool (run P (float_pow iv iw)).
Proof.
  unfold float_pow, complex_pow.
  repeat break_if; simpl; try outcome;
    destruct (P _ _); simpl; repeat break_if; outcome.
Qed.

Lemma call2_not_bool (P : platform) (op : operator) (f : builtin) (v w : value) :
  lookup _ALLOWED_OPERATORS (operator_type op) = Some f ->
  not_bool (run P (call2 f v w)).
Proof.
  intros Hf.
  destruct op; try discriminate; injection Hf as <-;
    cbn [call2];
    unfold op_add, op_sub, op_mul, op_truediv, op_mod, op_pow;
    apply (binary_op_cases P not_bool);
    try exact I; try (intros; exact I);
    intros; try (injection H0 as <-); try exact I.
  - unfold long_true_divide. repeat break_if; outcome.
  - unfold float_div. break_if; outcome.
  - unfold complex_div. destruct (_Py_c_quot x y); outcome.
  - unfold long_mod. break_if; outcome.
  - unfold float_rem. repeat break_if; outcome.
  - discriminate.
  - unfold long_pow. destruct (b <? 0); [| exact I].
    rewrite run_bind.
    destruct (run_PyLong_AsDouble P a) as [-> | [x ->]]; [exact I |].
    rewrite run_bind.
    destruct (run_PyLong_AsDouble P b) as [-> | [y ->]]; [exact I |].
    apply float_pow_not_bool.
  - apply float_pow_not_bool.
  - unfold complex_pow. simpl. destruct (P _ _); simpl; repeat break_if; outcome.
Qed.

Lemma _eval_bool (P : platform) (node : AST) (b : bool) :
  run P (_eval node) = Return (VBool b) -> literal_of node = Some (VBool b).
Proof.
  induction node as [body IH | l IHl op r IHr | op operand IH | v
                     | func args keywords | id | obj IH attr | obj IH
                     | elts | cls]; try discriminate.
  - exact IH.
  - cbn [_eval]. rewrite run_bind.
    destruct (run P (_eval l)) as [x | e]; [| discriminate].
    rewrite run_bind.
    destruct (run P (_eval r)) as [y | e]; [| discriminate].
    destruct (lookup _ALLOWED_OPERATORS (operator_type op)) as [f |] eqn:Hf;
      [| discriminate].
    intros H. pose proof (call2_not_bool P op f x y Hf) as N.
    rewrite H in N. destruct N.
  - cbn [_eval]. rewrite run_bind.
    pose proof (_eval_number P operand) as Hn.
    destruct (run P (_eval operand)) as [x | e]; [| discriminate].
    destruct (lookup _ALLOWED_OPERATORS (unaryop_type op)) as [f |] eqn:Hf;
      [| discriminate].
    destruct (call1_operator P op f x Hf (Hn x eq_refl)) as [w [-> [_ [_ Hw]]]].
    intros [= ->]. destruct Hw.
  - destruct v; simpl; intros [= <-]. reflexivity.
Qed.

(** X7.  [safe_eval] returns a bool only when the input is a bool
    literal and nothing else: whatever an operator of the table returns,
    it is no bool. *)
Theorem X7_bool_only_from_a_bool_literal
    (P : platform) (parse : string -> option AST) (expr : string) (b : bool) :
  run P (safe_eval parse expr) = Return (VBool b) ->
  exists node,
    parse (replace "^" "**" expr) = Some node /\
    literal_of node = Some (VBool b).
Proof.
  unfold safe_eval. destruct (parse _) as [node |]; [| discriminate].
  rewrite run_bind.
  destruct (run P (_eval node)) as [v | e] eqn:E; [| discriminate].
  rewrite display_spec. intros H. exists node. split; [reflexivity |].
  apply (_eval_bool P). rewrite E.
  destruct v; try exact H.
  destruct (float_is_integer x); discriminate.
Qed.

(** ["True"] is such an input. *)
Lemma X7_true_witness :
  run quiet_platform (safe_eval ast_parse "True") = Return (VBool true) /\
  exists node,
    ast_parse (replace "^" "**" "True") = Some node /\
    literal_of node = Some (VBool true).
Proof.
  assert (H : run quiet_platform (safe_eval ast_parse "True") =
              Return (VBool true)) by reflexivity.
  split; [exact H |].
  exact (X7_bool_only_from_a_bool_literal quiet_platform ast_parse "True" true H).
Defined.

(** ** The last lines of [safe_eval] *)

(** X8.  The conversion at the end of [safe_eval] adds no failure and
    leaves no float without a fractional part.  A float that [safe_eval]
    returns has a fractional part, or is infinite or NaN.  Once the
    parser has returned a tree, an exception that [safe_eval] raises is
    the exception of the walk of that tree, and when the walk returns,
    [safe_eval] returns ([int] is never applied to an infinite float or
    a NaN). *)
Theorem X8_post_processing_never_fails
    (P : platform) (parse : string -> option AST) (expr : string) :
  (forall x, run P (safe_eval parse expr) = Return (VFloat x) ->
             float_is_integer x = false) /\
  (forall node, parse (replace "^" "**" expr) = Some node ->
     (forall e, run P (safe_eval parse expr) = Raise e ->
                run P (_eval node) = Raise e) /\
     (forall v, run P (_eval node) = Return v ->
                exists w, run P (safe_eval parse expr) = Return w)).
Proof.
  unfold safe_eval. split.
  - destruct (parse _) as [node |]; [| discriminate].
    rewrite run_bind. destruct (run P (_eval node)) as [v | e']; [| discriminate].
    rewrite display_spec. intros x. destruct v; try discriminate.
    destruct (float_is_integer x0) eqn:E; [discriminate |].
    now intros [= <-].
  - intros node ->. rewrite run_bind. split.
    + intros e. destruct (run P (_eval node)) as [v | e']; [| trivial].
      rewrite display_spec. discriminate.
    + intros v ->. rewrite display_spec. eexists. reflexivity.
Qed.

(** ["10**308*10."] returns the float [inf]; ["5/0"] raises the
    [ZeroDivisionError] of its walk. *)
Lemma X8_overflow_witness :
  run quiet_platform (safe_eval ast_parse "10**308*10.") =
    Return (VFloat (S754_infinity false)) /\
  float_is_integer (S754_infinity false) = false /\
  ast_parse (replace "^" "**" "5/0") =
    Some (Expression (BinOp (Constant (VInt 5)) Div (Constant (VInt 0)))) /\
  run quiet_platform (safe_eval ast_parse "5/0") = Raise ZeroDivisionError /\
  run quiet_platform
      (_eval (Expression (BinOp (Constant (VInt 5)) Div (Constant (VInt 0))))) =
    Raise ZeroDivisionError.
Proof.
  assert (H1 : run quiet_platform (safe_eval ast_parse "10**308*10.") =
               Return (VFloat (S754_infinity false))) by (vm_compute; reflexivity).
  assert (H2 : run quiet_platform (safe_eval ast_parse "5/0") =
               Raise ZeroDivisionError) by (vm_compute; reflexivity).
  assert (H3 : ast_parse (replace "^" "**" "5/0") =
               Some (Expression (BinOp (Constant (VInt 5)) Div
                                       (Constant (VInt 0)))))
    by (vm_compute; reflexivity).
  split; [exact H1 |]. split.
  { exact (proj1 (X8_post_processing_never_fails quiet_platform ast_parse
                    "10**308*10.") _ H1). }
  split; [exact H3 |]. split; [exact H2 |].
  exact (proj1 (proj2 (X8_post_processing_never_fails quiet_platform ast_parse
                         "5/0") _ H3) _ H2).
Defined.

(** X9.  The int shown for a float without a fractional part has exactly
    the value of the float [m * 2 ^ e], however large: [m * 2 ^ e] itself
    when [e] is not negative, the quotient of [m] by [2 ^ - e], which
    divides it, otherwise.  Both zeros become the int 0; the infinities
    and NaN stay floats. *)
Theorem X9_integral_float_keeps_its_value :
  (forall s, display (VFloat (S754_zero s)) = Ret (VInt 0)) /\
  (forall s m e,
      float_is_integer (S754_finite s m e) = true ->
      exists n,
        display (VFloat (S754_finite s m e)) = Ret (VInt n) /\
        (0 <= e -> n = cond_Zopp s (Zpos m * 2 ^ e)) /\
        (e < 0 -> n * 2 ^ (- e) = cond_Zopp s (Zpos m))) /\
  (forall s, display (VFloat (S754_infinity s)) = Ret (VFloat (S754_infinity s))) /\
  display (VFloat S754_nan) = Ret (VFloat S754_nan).
Proof.
  split; [reflexivity |]. split; [| split; reflexivity].
  intros s m e H. exists (float_trunc (S754_finite s m e)). split.
  - rewrite display_spec, H. reflexivity.
  - pose proof (float_trunc_exact s m e H) as E. split; intros He.
    + rewrite (Z.max_r (- e) 0), (Z.max_l e 0) in E by lia.
      rewrite Z.mul_1_r in E. rewrite E. destruct s; unfold cond_Zopp; [ring | reflexivity].
    + rewrite (Z.max_l (- e) 0), (Z.max_r e 0) in E by lia.
      now rewrite Z.mul_1_r in E.
Qed.

(** The float 5.0. *)
Lemma X9_five_witness :
  float_is_integer (S754_finite false 5629499534213120 (-50)) = true /\
  display (VFloat (S754_finite false 5629499534213120 (-50))) = Ret (VInt 5) /\
  exists n,
    display (VFloat (S754_finite false 5629499534213120 (-50))) = Ret (VInt n) /\
    (0 <= -50 -> n = cond_Zopp false (5629499534213120 * 2 ^ (-50))) /\
    (-50 < 0 -> n * 2 ^ (- (-50)) = cond_Zopp false 5629499534213120).
Proof.
  split; [reflexivity |]. split; [reflexivity |].
  exact (proj1 (proj2 X9_integral_float_keeps_its_value)
           false 5629499534213120%positive (-50) eq_refl).
Defined.

(** ** The caret *)

(** X10.  The string [safe_eval] gives the parser holds no [^]: every
    [^] has become [**], one character more each; a string without [^] is
    given as it is; and the replacement of a concatenation is the
    concatenation of the replacements. *)
Theorem X10_no_caret_reaches_the_parser (s : string) :
  count "^" (replace "^" "**" s) = 0%nat /\
  String.length (replace "^" "**" s) = (String.length s + count "^" s)%nat /\
  (count "^" s = 0%nat -> replace "^" "**" s = s) /\
  (forall t, replace "^" "**" (s ++ t) =
             replace "^" "**" s ++ replace "^" "**" t).
Proof.
  induction s as [| c s [IH1 [IH2 [IH3 IH4]]]]; [repeat split |].
  cbn [replace count String.length].
  destruct (Ascii.eqb c "^") eqn:E.
  - repeat split.
    + exact IH1.
    + cbn [append String.length]. rewrite IH2. lia.
    + discriminate.
    + intros t. cbn [append replace]. rewrite E, IH4. reflexivity.
  - repeat split.
    + cbn [count]. now rewrite E.
    + cbn [String.length]. now rewrite IH2.
    + intros H. now rewrite IH3.
    + intros t. cbn [append replace]. rewrite E, IH4. reflexivity.
Qed.

(** ["2+3"] holds no [^]. *)
Lemma X10_plain_witness :
  count "^" "2+3" = 0%nat /\ replace "^" "**" "2+3" = "2+3".
Proof.
  split; [reflexivity |].
  exact (proj1 (proj2 (proj2 (X10_no_caret_reaches_the_parser "2+3"))) eq_refl).
Defined.

(** ** Syntax errors *)

(** X11.  A run of digits that starts with a zero and is not zero, such
    as [007], is a syntax error for [safe_eval]: Python's decimal integer
    literals take no leading zeros. *)
Theorem X11_leading_zeros_are_a_syntax_error (d : uint) :
  leading_zeros d = true ->
  safe_eval ast_parse (NilEmpty.string_of_uint d) =
  Throw (ValueError "Syntax error").
Proof.
  intros Hz. unfold safe_eval. rewrite replace_string_of_uint.
  assert (Hd : d <> Nil) by (intros ->; discriminate).
  pose proof (scan_digits_string_of_uint d) as Hs.
  destruct (string_of_uint_digit d Hd) as [c [s [E Hc]]].
  unfold ast_parse. rewrite E in *. cbn [String.length tokenize].
  rewrite Hc, Hs. cbn [starts_with orb]. now rewrite Hz.
Qed.

(** ["007"]. *)
Lemma X11_double_o_seven_witness :
  leading_zeros (D0 (D0 (D7 Nil))) = true /\
  safe_eval ast_parse "007" = Throw (ValueError "Syntax error").
Proof.
  split; [reflexivity |].
  exact (X11_leading_zeros_are_a_syntax_error (D0 (D0 (D7 Nil))) eq_refl).
Defined.

(** *** What the rules of the grammar take from the tokens *)

Lemma consumes_one (t : token) (ts : list token) :
  closing t = true -> consumes (t :: ts) ts.
Proof. intros H. exists [t]. split; [reflexivity |]. now exists [], t. Qed.

Lemma consumes_cons (t : token) (ts rest : list token) :
  consumes ts rest -> consumes (t :: ts) rest.
Proof.
  intros [pre [-> [pre' [t' [-> H]]]]]. exists (t :: pre' ++ [t'])%list.
  split; [reflexivity |]. now exists (t :: pre'), t'.
Qed.

Lemma consumes_then (ts ts' rest : list token) :
  consumes ts ts' -> may_consume ts' rest -> consumes ts rest.
Proof.
  intros H [<- | [pre2 [-> [pre' [t' [-> Ht]]]]]]; [exact H |].
  destruct H as [pre1 [-> _]]. exists (pre1 ++ pre' ++ [t'])%list.
  split; [now rewrite <- !app_assoc |].
  exists (pre1 ++ pre')%list, t'. split; [now rewrite <- !app_assoc | exact Ht].
Qed.

Lemma consumes_paren (t : token) (ts rest : list token) :
  consumes ts (RPAR :: rest) -> consumes (t :: ts) rest.
Proof.
  intros [pre [-> _]]. exists (t :: pre ++ [RPAR])%list. split.
  - cbn. now rewrite <- !app_assoc.
  - now exists (t :: pre), RPAR.
Qed.

Lemma strings_consumes (ts : list token) (s : string) (rest : list token) :
  strings ts = (s, rest) -> may_consume ts rest.
Proof.
  revert s rest. induction ts as [| t ts IH]; intros s rest H.
  - injection H as _ <-. now left.
  - destruct t; try (injection H as _ <-; now left).
    cbn [strings] in H. destruct (strings ts) as [s' rest'] eqn:E.
    injection H as _ <-. right.
    apply (consumes_then _ ts); [now apply consumes_one | exact (IH _ _ eq_refl)].
Qed.

Ltac sub f IH :=
  match goal with
  | H : context [f ?n ?ts] |- _ =>
      let E := fresh "E" in
      destruct (f n ts) as [[? ?] |] eqn:E; [| discriminate];
      apply IH in E
  end.

(** Whatever a rule of the grammar takes from the tokens ends with a
    token that can close an expression. *)
Lemma rules_consume (n : nat) :
  rule_consumes rule_sum n /\ rest_consumes rule_sum_rest n /\ rule_consumes rule_term n /\
  rest_consumes rule_term_rest n /\ rule_consumes rule_factor n /\
  rule_consumes rule_power n /\ rule_consumes rule_primary n /\
  rest_consumes rule_trailers n /\ rule_consumes rule_atom n.
Proof.
  induction n as [| n IH].
  - repeat split; intros ? ? ? ?; discriminate.
  - destruct IH as (Hsum & Hsumr & Hterm & Htermr & Hfac & Hpow & Hprim
                    & Htrail & Hatom).
    repeat split.
    + intros ts e rest H. cbn [rule_sum] in H. sub rule_term Hterm.
      apply Hsumr in H. eauto using consumes_then.
    + intros e ts e' rest H. cbn [rule_sum_rest] in H.
      destruct ts as [| [] ts1]; try (injection H as <- <-; now left);
        sub rule_term Hterm; apply Hsumr in H; right;
        eauto using consumes_then, consumes_cons.
    + intros ts e rest H. cbn [rule_term] in H. sub rule_factor Hfac.
      apply Htermr in H. eauto using consumes_then.
    + intros e ts e' rest H. cbn [rule_term_rest] in H.
      destruct ts as [| [] ts1]; try (injection H as <- <-; now left);
        sub rule_factor Hfac; apply Htermr in H; right;
        eauto using consumes_then, consumes_cons.
    + intros ts e rest H. cbn [rule_factor] in H.
      destruct ts as [| [] ts1]; try (now apply Hpow in H);
        sub rule_factor Hfac; injection H as <- <-;
        eauto using consumes_cons.
    + intros ts e rest H. cbn [rule_power] in H. sub rule_primary Hprim.
      destruct l as [| [] ts1]; try (injection H as <- <-; assumption).
      sub rule_factor Hfac. injection H as <- <-.
      eapply consumes_then; [eassumption |]. right.
      now apply consumes_cons.
    + intros ts e rest H. cbn [rule_primary] in H. sub rule_atom Hatom.
      apply Htrail in H. eauto using consumes_then.
    + intros e ts e' rest H. cbn [rule_trailers] in H.
      unfold expect_rpar in H.
      destruct ts as [| [] ts1]; try (injection H as <- <-; now left).
      * destruct ts1 as [| [] ts2];
          try (sub rule_sum Hsum;
               match goal with
               | H : context [match ?l with [] => _ | _ :: _ => _ end] |- _ =>
                   destruct l as [| [] ?]; try discriminate
               end;
               apply Htrail in H; right;
               eapply consumes_then; [| eassumption];
               eauto using consumes_paren, consumes_cons).
        apply Htrail in H. right.
        eapply consumes_then; [| eassumption].
        apply consumes_cons. now apply consumes_one.
      * destruct ts1 as [| [] ts2]; try (injection H as <- <-; now left).
        destruct (is_keyword id); [discriminate |].
        apply Htrail in H. right.
        eapply consumes_then; [| eassumption].
        apply consumes_cons. now apply consumes_one.
    + intros ts e rest H. cbn [rule_atom] in H. unfold expect_rpar in H.
      destruct ts as [| [] ts1]; try discriminate.
      * destruct fraction; injection H as <- <-; now apply consumes_one.
      * destruct (name_atom id); [| discriminate].
        injection H as <- <-. now apply consumes_one.
      * destruct (strings _) as [s' rest'] eqn:E. injection H as <- <-.
        cbn [strings] in E. destruct (strings ts1) as [s1 r1] eqn:E1.
        injection E as _ <-.
        apply (consumes_then _ ts1); [now apply consumes_one |].
        exact (strings_consumes _ _ _ E1).
      * destruct ts1 as [| [] ts2];
          try (sub rule_sum Hsum;
               match goal with
               | H : context [match ?l with [] => _ | _ :: _ => _ end] |- _ =>
                   destruct l as [| [] ?]; try discriminate
               end;
               injection H as <- <-; now apply consumes_paren).
        injection H as <- <-. apply consumes_cons. now apply consumes_one.
      * injection H as <- <-. now apply consumes_one.
Qed.

(** *** The tokens of an input that ends with an operator *)

Lemma ends_with_cons (p : token -> bool) (t : token) (ts : list token) :
  ends_with p ts -> ends_with p (t :: ts).
Proof. intros [pre [t' [-> H]]]. now exists (t :: pre), t'. Qed.

Lemma emit_open (tok : token) (fuel : nat) (rest : string) (ts : list token) :
  (forall ts', tokenize fuel rest = Some ts' -> ends_with opening ts') ->
  option_map (cons tok) (tokenize fuel rest) = Some ts ->
  ends_with opening ts.
Proof.
  intros IH H. destruct (tokenize fuel rest) as [ts' |]; [| discriminate].
  injection H as <-. apply ends_with_cons, IH. reflexivity.
Qed.

Lemma open_char_cases (c : ascii) :
  In c open_chars ->
  isdigit c = false /\ is_name_start c = false /\ Ascii.eqb c "." = false.
Proof.
  intros H. cbn in H.
  repeat (destruct H as [<- | H]; [repeat split |]). destruct H.
Qed.

Lemma scan_digits_snoc (c : ascii) (x : string) :
  isdigit c = false ->
  scan_digits (x ++ String c "") =
  let (d, r) := scan_digits x in (d, r ++ String c "").
Proof.
  intros Hc. induction x as [| a x IH].
  - cbn. unfold isdigit in Hc. now destruct (digit c).
  - cbn [append scan_digits]. destruct (digit a); [| reflexivity].
    rewrite IH. now destruct (scan_digits x).
Qed.

Lemma scan_digits_rest (p : ascii -> bool) (x : string) :
  all p x = true -> all p (snd (scan_digits x)) = true.
Proof.
  induction x as [| a x IH]; [reflexivity |].
  intros H. cbn [scan_digits]. destruct (digit a); [| exact H].
  cbn [all] in H. apply andb_true_iff in H as [_ H].
  specialize (IH H). now destruct (scan_digits x).
Qed.

Lemma is_key_cases (c : ascii) :
  is_key c = true ->
  In c (list_ascii_of_string Calculator.bound_keys).
Proof.
  unfold is_key. intros H. apply existsb_exists in H as [k [Hk E]].
  apply Ascii.eqb_eq in E. now subst.
Qed.

Lemma key_not_name_start (c : ascii) :
  is_key c = true -> is_name_start c = false.
Proof.
  intros H. apply is_key_cases in H. cbn in H.
  repeat (destruct H as [<- | H]; [reflexivity |]). destruct H.
Qed.

Lemma starts_with_name_start (x : string) (c : ascii) :
  all is_key x = true -> is_name_start c = false ->
  starts_with is_name_start (x ++ String c "") = false.
Proof.
  intros Hx Hc. destruct x as [| a x]; [exact Hc |].
  cbn [all] in Hx. apply andb_true_iff in Hx as [Ha _].
  now apply key_not_name_start.
Qed.

(** [rest] without the [c] it ends with. *)
Ltac without_last c rest :=
  lazymatch rest with
  | ?x ++ String c "" => x
  | String c "" => constr:("")
  | String ?b ?rest' => let x := without_last c rest' in constr:(String b x)
  end.

(** A token has been emitted, and what follows still ends with [c]. *)
Ltac emitted IH H :=
  lazymatch type of IH with
  | context [String ?c ""] =>
  lazymatch type of H with
  | option_map _ (tokenize _ ?rest) = Some _ =>
      let x := without_last c rest in
      apply (emit_open _ _ _ _ (fun ts' Ht => IH x ts' ltac:(cbn; auto) Ht) H)
  end
  end.

(** The last token has been emitted. *)
Ltac emitted_last H :=
  lazymatch type of H with
  | option_map _ (tokenize ?fuel "") = Some _ =>
      destruct fuel; cbn in H; injection H as <-; now eexists [], _
  end.

(** The digits at the head of what is left. *)
Ltac digits Hd H :=
  lazymatch type of H with
  | context [scan_digits (?x ++ String ?c "")] =>
      let d := fresh "d" in
      let r := fresh "r" in
      let E := fresh "E" in
      let K := fresh "K" in
      rewrite (scan_digits_snoc c x Hd) in H;
      assert (K : all is_key (snd (scan_digits x)) = true)
        by (apply scan_digits_rest; cbn; auto);
      destruct (scan_digits x) as [d r] eqn:E; cbn [snd] in K
  end.

Ltac each_key b H :=
  let K := fresh "K" in
  lazymatch goal with
  | Hs : all is_key (String b ?s) = true |- _ =>
      cbn [all] in Hs; apply andb_true_iff in Hs as [K Hs];
      apply is_key_cases in K; cbn in K;
      repeat (destruct K as [<- | K]; [cbn in H |]); [.. | destruct K]
  end.

Ltac each_open Hc H :=
  cbn in Hc; repeat (destruct Hc as [<- | Hc]; [cbn in H |]); [.. | destruct Hc].

Ltac checked H :=
  lazymatch type of H with
  | (if ?b then None else _) = Some _ => destruct b; [discriminate H |]
  end.

(** One step of the tokenizer on a string that ends with [c]. *)
Ltac tokenized IH Hd H :=
  first
    [ discriminate H
    | emitted_last H
    | emitted IH H
    | checked H; emitted IH H
    | digits Hd H;
      rewrite starts_with_name_start in H by assumption;
      emitted IH H ].

(** The tokens of a string of keys that ends with an operator or an
    opening parenthesis end with the token of an operator or of an
    opening parenthesis. *)
Lemma tokenize_open (c : ascii) :
  In c open_chars ->
  forall (fuel : nat) (s : string) (ts : list token),
    all is_key s = true ->
    tokenize fuel (s ++ String c "") = Some ts ->
    ends_with opening ts.
Proof.
  intros Hc. destruct (open_char_cases c Hc) as [Hd [Hn Hp]].
  induction fuel as [| fuel IH]; intros s ts Hs H.
  - destruct s; discriminate.
  - assert (Hnum : forall (ip : uint) (r : string),
               all is_key r = true ->
               match r ++ String c "" with
               | String "."%char r2 =>
                   let (fp, r3) := scan_digits r2 in
                   if starts_with is_name_start r3 then None
                   else option_map (cons (NUMBER ip (Some fp)))
                                   (tokenize fuel r3)
               | _ =>
                   if starts_with is_name_start (r ++ String c "")
                      || leading_zeros ip
                   then None
                   else option_map (cons (NUMBER ip None))
                                   (tokenize fuel (r ++ String c ""))
               end = Some ts ->
               ends_with opening ts).
    { clear H Hs. intros ip r Hs H. destruct r as [| b r'].
      - cbn [append] in H. each_open Hc H; tokenized IH Hd H.
      - cbn [append] in H. each_key b H; tokenized IH Hd H. }
    destruct s as [| a s'].
    + cbn [append] in H. cbn in Hc.
      repeat (destruct Hc as [<- | Hc];
              [destruct fuel; cbn in H; injection H as <-;
               now eexists [], _ |]).
      destruct Hc.
    + cbn [append] in H. each_key a H.
      all: try (tokenized IH Hd H).
      all: try (digits Hd H; now apply Hnum in H).
      all: destruct s' as [| b s'']; cbn [append] in H.
      all: try rewrite Hd in H.
      all: try (each_open Hc H; tokenized IH Hd H).
      all: each_key b H.
      all: try (tokenized IH Hd H).
      all: destruct s'' as [| b2 s3]; cbn [append] in H.
      all: try (each_open Hc H; tokenized IH Hd H).
      all: each_key b2 H; tokenized IH Hd H.
Qed.

Lemma append_nil_r (s : string) : s ++ "" = s.
Proof. induction s as [| c s IH]; simpl; now rewrite ?IH. Qed.

Lemma append_assoc (s t u : string) : (s ++ t) ++ u = s ++ t ++ u.
Proof. induction s as [| c s IH]; simpl; now rewrite ?IH. Qed.

Lemma all_append (p : ascii -> bool) (s t : string) :
  all p (s ++ t) = all p s && all p t.
Proof.
  induction s as [| c s IH]; [reflexivity |].
  cbn [append all]. now rewrite IH, andb_assoc.
Qed.

Lemma replace_append (s t : string) :
  replace "^" "**" (s ++ t) = replace "^" "**" s ++ replace "^" "**" t.
Proof.
  induction s as [| c s IH]; [reflexivity |].
  cbn [append replace]. rewrite IH.
  destruct (Ascii.eqb c "^"); reflexivity.
Qed.

Lemma replace_keys (s : string) :
  all is_key s = true -> all is_key (replace "^" "**" s) = true.
Proof.
  induction s as [| c s IH]; [reflexivity |].
  cbn [all replace]. intros H. apply andb_true_iff in H as [Hc Hs].
  destruct (Ascii.eqb c "^"); cbn [append all]; rewrite ?Hc, IH; auto.
Qed.

(** A string of keys that ends with an operator or an opening
    parenthesis is no expression. *)
Lemma ast_parse_open (s : string) (c : ascii) :
  all is_key s = true -> In c open_chars ->
  ast_parse (s ++ String c "") = None.
Proof.
  intros Hs Hc. unfold ast_parse.
  destruct (tokenize _ _) as [ts |] eqn:Ht; [| reflexivity].
  apply (tokenize_open c Hc) in Ht; [| exact Hs].
  destruct (rule_sum _ ts) as [[body [| t rest]] |] eqn:Hr; try reflexivity.
  apply (proj1 (rules_consume _)) in Hr.
  destruct Hr as [pre [-> [pre1 [t1 [-> H1]]]]].
  destruct Ht as [pre2 [t2 [E H2]]]. rewrite List.app_nil_r in E.
  apply app_inj_tail in E as [_ <-].
  unfold opening in H2. rewrite H1 in H2. discriminate.
Qed.

(** X12.  The empty string, and every string of the calculator's keys
    that ends with [+], [-], [*], [/], [%], [(] or [^], is a syntax error
    for [safe_eval]. *)
Theorem X12_unfinished_input_is_a_syntax_error :
  safe_eval ast_parse "" = Throw (ValueError "Syntax error") /\
  (forall (s : string) (c : ascii),
      all is_key s = true ->
      In c ["+"; "-"; "*"; "/"; "%"; "("; "^"]%char ->
      safe_eval ast_parse (s ++ String c "") =
      Throw (ValueError "Syntax error")).
Proof.
  split; [reflexivity |].
  intros s c Hs Hc. unfold safe_eval. rewrite replace_append.
  pose proof (replace_keys s Hs) as Hk.
  assert (H : exists x c', all is_key x = true /\ In c' open_chars /\
                           replace "^" "**" s ++ replace "^" "**" (String c "")
                           = x ++ String c' "").
  { cbn in Hc.
    repeat (destruct Hc as [<- | Hc];
            [exists (replace "^" "**" s); eexists;
             split; [exact Hk |]; split; [| reflexivity]; cbn; tauto |]).
    destruct Hc as [<- | []].
    exists (replace "^" "**" s ++ "*"), "*"%char.
    split; [| split; [cbn; tauto |]].
    - rewrite all_append, Hk. reflexivity.
    - now rewrite append_assoc. }
  destruct H as [x [c' [Hx [Hc' ->]]]].
  now rewrite (ast_parse_open x c' Hx Hc').
Qed.

(** ["2+"]. *)
Lemma X12_two_plus_witness :
  all is_key "2" = true /\
  In "+"%char ["+"; "-"; "*"; "/"; "%"; "("; "^"]%char /\
  safe_eval ast_parse "2+" = Throw (ValueError "Syntax error").
Proof.
  assert (H : In "+"%char ["+"; "-"; "*"; "/"; "%"; "("; "^"]%char)
    by (left; reflexivity).
  split; [reflexivity |]. split; [exact H |].
  exact (proj2 X12_unfinished_input_is_a_syntax_error "2" "+"%char eq_refl H).
Defined.

(** * Properties of the window *)

(** ** Strings *)

Lemma but_last_snoc (s : string) (c : ascii) :
  but_last (s ++ String c "") = s.
Proof.
  induction s as [| a s IH]; [reflexivity |].
  cbn [append]. destruct s as [| b s]; [reflexivity |].
  cbn [append but_last] in *. now rewrite IH.
Qed.

Lemma rstrip_head (c : ascii) (s : string) :
  isspace c = false -> rstrip (String c s) = String c (rstrip s).
Proof.
  intros H. cbn [rstrip]. rewrite H. now destruct (rstrip s).
Qed.

Lemma rstrip_idempotent (s : string) : rstrip (rstrip s) = rstrip s.
Proof.
  induction s as [| c s IH]; [reflexivity |].
  cbn [rstrip]. destruct (rstrip s) as [| b r] eqn:E.
  - destruct (isspace c) eqn:Hc; [reflexivity |].
    cbn [rstrip]. now rewrite Hc.
  - cbn [rstrip] in *. now rewrite IH.
Qed.

Lemma lstrip_starts (s : string) :
  lstrip s = "" \/ exists c s', lstrip s = String c s' /\ isspace c = false.
Proof.
  induction s as [| c s IH]; [now left |].
  cbn [lstrip]. destruct (isspace c) eqn:Hc; eauto.
Qed.

Lemma strip_idempotent (s : string) : strip (strip s) = strip s.
Proof.
  unfold strip. destruct (lstrip_starts s) as [-> | [c [s' [-> Hc]]]];
    [reflexivity |].
  rewrite (rstrip_head c s' Hc). cbn [lstrip]. rewrite Hc.
  rewrite <- (rstrip_head c s' Hc). apply rstrip_idempotent.
Qed.

Lemma strip_no_space (s : string) :
  all (fun c => negb (isspace c)) s = true -> strip s = s.
Proof.
  unfold strip. induction s as [| c s IH]; [reflexivity |].
  cbn [all]. intros H. apply andb_true_iff in H as [Hc Hs].
  apply negb_true_iff in Hc. cbn [lstrip]. rewrite Hc.
  rewrite (rstrip_head c s Hc). f_equal.
  specialize (IH Hs). destruct s as [| b s]; [reflexivity |].
  cbn [all] in Hs. apply andb_true_iff in Hs as [Hb _].
  apply negb_true_iff in Hb. cbn [lstrip] in IH. now rewrite Hb in IH.
Qed.

Lemma all_impl (p q : ascii -> bool) (s : string) :
  (forall c, p c = true -> q c = true) -> all p s = true -> all q s = true.
Proof.
  intros H. induction s as [| c s IH]; [reflexivity |].
  cbn [all]. intros Hs. apply andb_true_iff in Hs as [Hc Hs].
  now rewrite (H c Hc), IH.
Qed.

Lemma is_key_not_space (c : ascii) : is_key c = true -> isspace c = false.
Proof.
  intros H. apply is_key_cases in H. cbn in H.
  repeat (destruct H as [<- | H]; [reflexivity |]). contradiction.
Qed.

Lemma strip_keys (s : string) : all is_key s = true -> strip s = s.
Proof.
  intros H. apply strip_no_space. revert H. apply all_impl.
  intros c Hc. now rewrite (is_key_not_space c Hc).
Qed.

Lemma string_of_uint_no_space (d : uint) :
  all (fun c => negb (isspace c)) (NilEmpty.string_of_uint d) = true.
Proof. induction d; simpl; auto. Qed.

Lemma str_int_no_space (n : Z) :
  all (fun c => negb (isspace c)) (str_int n) = true /\ str_int n <> "".
Proof.
  unfold str_int.
  destruct n as [| p | p]; [split; [reflexivity | discriminate] | |];
    cbn [Z.to_int NilZero.string_of_int];
    pose proof (DecimalPos.Unsigned.to_uint_nonnil p) as Hp;
    rewrite (NilZero_string_of_uint _ Hp).
  - split; [apply string_of_uint_no_space |].
    destruct (string_of_uint_digit _ Hp) as [c [s [-> _]]]. discriminate.
  - split; [| discriminate].
    cbn [all]. now rewrite string_of_uint_no_space.
Qed.

(** ** The buffer and the keys *)

(** X13.  [backspace] removes the last character of the buffer and
    nothing else; on the empty buffer it changes nothing and raises
    nothing; it undoes [_append] of one character; the buffer gets one
    character shorter unless it is empty. *)
Theorem X13_backspace_removes_the_last_character :
  (forall (s : string) (c : ascii),
      Calculator.backspace {| Calculator._expr := s ++ String c "" |} =
      {| Calculator._expr := s |}) /\
  Calculator.backspace {| Calculator._expr := "" |} =
    {| Calculator._expr := "" |} /\
  (forall (self : Calculator.t) (c : ascii),
      Calculator.backspace (Calculator._append self (String c "")) = self) /\
  (forall self : Calculator.t,
      String.length (Calculator._expr (Calculator.backspace self)) =
      Nat.pred (String.length (Calculator._expr self))).
Proof.
  unfold Calculator.backspace, Calculator._append. repeat split.
  - intros s c. cbn. now rewrite but_last_snoc.
  - intros [s] c. cbn. now rewrite but_last_snoc.
  - intros [s]. cbn. induction s as [| a s IH]; [reflexivity |].
    destruct s as [| b s]; [reflexivity |].
    cbn [but_last String.length] in *. now rewrite IH.
Qed.

Lemma key_presses_app (parse : string -> option AST) (P : platform)
    (ks ks' : list string) (self : Calculator.t) :
  run P (Calculator.key_presses parse (ks ++ ks') self) =
  match run P (Calculator.key_presses parse ks self) with
  | Return self' => run P (Calculator.key_presses parse ks' self')
  | Raise e => Raise e
  end.
Proof.
  revert self. induction ks as [| k ks IH]; intros self; [reflexivity |].
  cbn [List.app Calculator.key_presses]. rewrite !run_bind.
  destruct (run P (Calculator.key_press parse k self)); auto.
Qed.

Lemma key_press_key (parse : string -> option AST) (c : ascii)
    (self : Calculator.t) :
  is_key c = true ->
  Calculator.key_press parse (String c "") self =
  Ret (Calculator._append self (String c "")).
Proof.
  intros H. apply is_key_cases in H. cbn in H.
  repeat (destruct H as [<- | H]; [reflexivity |]). contradiction.
Qed.

Lemma key_presses_typing (parse : string -> option AST) (s : string)
    (self : Calculator.t) :
  all is_key s = true ->
  Calculator.key_presses parse (typing s) self =
  Ret {| Calculator._expr := Calculator._expr self ++ s |}.
Proof.
  revert self. induction s as [| c s IH]; intros [b] H.
  - cbn. now rewrite append_nil_r.
  - cbn [all] in H. apply andb_true_iff in H as [Hc Hs].
    unfold typing in *. cbn [list_ascii_of_string map Calculator.key_presses].
    rewrite (key_press_key parse c _ Hc). cbn [bind].
    rewrite (IH _ Hs). unfold Calculator._append. cbn [Calculator._expr].
    now rewrite append_assoc.
Qed.

(** The handler of [=] returns. *)
Lemma evaluate_returns (P : platform) (parse : string -> option AST)
    (self : Calculator.t) :
  exists self', run P (Calculator.evaluate parse self) = Return self'.
Proof.
  unfold Calculator.evaluate.
  destruct (String.eqb _ _); [eexists; reflexivity |].
  rewrite run_try_except, run_bind.
  destruct (run P (safe_eval parse _)) as [v | e]; [| eexists; reflexivity].
  rewrite run_bind. destruct (run P (str v)); eexists; reflexivity.
Qed.

(** What the handler of [=] does to a buffer that is not blank and has
    no whitespace around it. *)
Lemma evaluate_stripped (P : platform) (parse : string -> option AST)
    (s : string) :
  strip s = s -> s <> "" ->
  run P (Calculator.evaluate parse {| Calculator._expr := s |}) =
  match run P (safe_eval parse s) with
  | Return v =>
      match run P (str v) with
      | Return text => Return {| Calculator._expr := text |}
      | Raise e => Return {| Calculator._expr := "Error" |}
      end
  | Raise _ => Return {| Calculator._expr := "Error" |}
  end.
Proof.
  intros Hs Hne. unfold Calculator.evaluate. cbn [Calculator._expr].
  rewrite Hs. apply String.eqb_neq in Hne. rewrite Hne.
  rewrite run_try_except, run_bind.
  destruct (run P (safe_eval parse s)) as [v | e]; [| reflexivity].
  rewrite run_bind. destruct (run P (str v)); reflexivity.
Qed.

(** X14.  Typing a string of the keys that [_bind_keys] binds into the
    new window puts exactly that string in the buffer; the Enter key then
    gives that very string to [safe_eval] and sets the buffer to the text
    of the result, or to ["Error"] if [safe_eval] raises or if [str]
    raises on the result. *)
Theorem X14_typed_keys_reach_the_evaluator
    (P : platform) (parse : string -> option AST) (s : string) :
  all is_key s = true -> s <> "" ->
  Calculator.key_presses parse (typing s) Calculator.__init__ =
    Ret {| Calculator._expr := s |} /\
  match run P (safe_eval parse s) with
  | Return v =>
      match run P (str v) with
      | Return text =>
          run P (Calculator.key_presses parse (typing s ++ ["<Return>"])
                   Calculator.__init__) =
            Return {| Calculator._expr := text |}
      | Raise _ =>
          run P (Calculator.key_presses parse (typing s ++ ["<Return>"])
                   Calculator.__init__) =
            Return {| Calculator._expr := "Error" |}
      end
  | Raise _ =>
      run P (Calculator.key_presses parse (typing s ++ ["<Return>"])
               Calculator.__init__) =
        Return {| Calculator._expr := "Error" |}
  end.
Proof.
  intros Hk Hne.
  assert (Ht : Calculator.key_presses parse (typing s) Calculator.__init__ =
               Ret {| Calculator._expr := s |})
    by exact (key_presses_typing parse s Calculator.__init__ Hk).
  split; [exact Ht |].
  assert (Hr : run P (Calculator.key_presses parse (typing s ++ ["<Return>"])
                        Calculator.__init__) =
               run P (Calculator.evaluate parse {| Calculator._expr := s |})).
  { rewrite key_presses_app, Ht. cbn [run Calculator.key_presses].
    change (Calculator.key_press parse "<Return>" ?x)
      with (Calculator.evaluate parse x).
    rewrite run_bind.
    now destruct (run P (Calculator.evaluate parse _)). }
  rewrite Hr, (evaluate_stripped P parse s (strip_keys s Hk) Hne).
  destruct (run P (safe_eval parse s)) as [v | e]; [| reflexivity].
  destruct (run P (str v)); reflexivity.
Qed.

(** The keys [2], [+], [3] and Enter leave 5 on the display. *)
Lemma X14_two_plus_three_witness :
  all is_key "2+3" = true /\ "2+3" <> "" /\
  Calculator.key_presses ast_parse ["2"; "+"; "3"] Calculator.__init__ =
    Ret {| Calculator._expr := "2+3" |} /\
  run quiet_platform
      (Calculator.key_presses ast_parse ["2"; "+"; "3"; "<Return>"]
         Calculator.__init__) =
    Return {| Calculator._expr := "5" |}.
Proof.
  assert (H1 : all is_key "2+3" = true) by reflexivity.
  assert (H2 : "2+3" <> "") by discriminate.
  split; [exact H1 |]. split; [exact H2 |].
  destruct (X14_typed_keys_reach_the_evaluator quiet_platform ast_parse "2+3"
              H1 H2) as [Ht Hr].
  split; [exact Ht |]. exact Hr.
Defined.

(** X15.  No sequence of key events makes a handler raise, whatever the
    buffer holds and whatever the platform answers; and after the Delete
    key the buffer is empty, whatever came before. *)
Theorem X15_no_key_event_raises
    (P : platform) (parse : string -> option AST) (sequences : list string)
    (self : Calculator.t) :
  (exists self',
      run P (Calculator.key_presses parse sequences self) = Return self') /\
  run P (Calculator.key_presses parse (sequences ++ ["<Delete>"]) self) =
    Return {| Calculator._expr := "" |}.
Proof.
  assert (H : forall seqs self, exists self',
             run P (Calculator.key_presses parse seqs self) = Return self').
  { clear. intros seqs. induction seqs as [| k ks IH]; intros self.
    - eexists; reflexivity.
    - cbn [Calculator.key_presses]. rewrite run_bind.
      assert (Hk : exists self',
                 run P (Calculator.key_press parse k self) = Return self').
      { unfold Calculator.key_press.
        destruct (Calculator.binding _ _) as [[c | | |] |];
          try (eexists; reflexivity).
        apply evaluate_returns. }
      destruct Hk as [self' ->]. apply IH. }
  split; [apply H |].
  rewrite key_presses_app. destruct (H sequences self) as [self' ->].
  reflexivity.
Qed.

(** X16.  Whitespace around the contents of the buffer does not count:
    on a buffer that is not blank the handler of [=] does what it does on
    the stripped buffer. *)
Theorem X16_surrounding_whitespace_is_ignored
    (parse : string -> option AST) (self : Calculator.t) :
  strip (Calculator._expr self) <> "" ->
  Calculator.evaluate parse self =
  Calculator.evaluate parse
    {| Calculator._expr := strip (Calculator._expr self) |}.
Proof.
  intros H. apply String.eqb_neq in H.
  unfold Calculator.evaluate. cbn [Calculator._expr].
  now rewrite strip_idempotent, H.
Qed.

(** ["  2+3 "] and ["2+3"]. *)
Lemma X16_padded_witness :
  strip "  2+3 " <> "" /\
  Calculator.evaluate ast_parse {| Calculator._expr := "  2+3 " |} =
  Calculator.evaluate ast_parse {| Calculator._expr := "2+3" |}.
Proof.
  assert (H : strip "  2+3 " <> "") by discriminate.
  split; [exact H |].
  exact (X16_surrounding_whitespace_is_ignored ast_parse
           {| Calculator._expr := "  2+3 " |} H).
Defined.

(** X17.  When the evaluation of a buffer that is not blank returns an
    int, [str] gives its text (the int has no more digits than the limit
    of the interpreter) and the parser reads that text as Python's does,
    the handler of [=] sets the buffer to the decimal text of that int,
    and a second [=] leaves the buffer as it is. *)
Theorem X17_confirm_twice_is_confirm_once
    (P : platform) (parse : string -> option AST) (self : Calculator.t)
    (n : Z) (text : string) :
  strip (Calculator._expr self) <> "" ->
  run P (safe_eval parse (strip (Calculator._expr self))) = Return (VInt n) ->
  run P (str (VInt n)) = Return text ->
  reads_back parse text (VInt n) ->
  text = str_int n /\
  run P (Calculator.evaluate parse self) =
    Return {| Calculator._expr := text |} /\
  run P (Calculator.evaluate parse {| Calculator._expr := text |}) =
    Return {| Calculator._expr := text |}.
Proof.
  intros Hne H Hstr [tree [Hp Ht]].
  pose proof (str_int_text P n text Hstr) as Htext.
  destruct (str_int_no_space n) as [Hs Hn]. rewrite <- Htext in Hs, Hn.
  split; [exact Htext |]. split.
  - apply String.eqb_neq in Hne. unfold Calculator.evaluate.
    now rewrite Hne, run_try_except, run_bind, H, run_bind, Hstr.
  - rewrite (evaluate_stripped P parse _ (strip_no_space _ Hs) Hn).
    destruct (walk_text_tree P (VInt n) tree eq_refl Ht) as [w [Hw [_ [He _]]]].
    unfold safe_eval. rewrite Hp, run_bind.
    change (_eval (Expression tree)) with (_eval tree).
    rewrite Hw, (He eq_refl). cbn [display run]. now rewrite Hstr.
Qed.

(** ["2+3*4"] becomes ["14"], and ["14"] stays. *)
Lemma X17_fourteen_witness :
  strip "2+3*4" <> "" /\
  run quiet_platform (safe_eval ast_parse (strip "2+3*4")) = Return (VInt 14) /\
  run quiet_platform (str (VInt 14)) = Return "14" /\
  reads_back ast_parse "14" (VInt 14) /\
  run quiet_platform
      (Calculator.evaluate ast_parse {| Calculator._expr := "2+3*4" |}) =
    Return {| Calculator._expr := "14" |} /\
  run quiet_platform
      (Calculator.evaluate ast_parse {| Calculator._expr := "14" |}) =
    Return {| Calculator._expr := "14" |}.
Proof.
  assert (H0 : strip "2+3*4" <> "") by discriminate.
  assert (H1 : run quiet_platform (safe_eval ast_parse (strip "2+3*4")) =
               Return (VInt 14)) by (vm_compute; reflexivity).
  assert (H2 : run quiet_platform (str (VInt 14)) = Return "14")
    by (vm_compute; reflexivity).
  assert (H3 : reads_back ast_parse "14" (VInt 14)).
  { eexists. split; [vm_compute; reflexivity | reflexivity]. }
  split; [exact H0 |]. split; [exact H1 |]. split; [exact H2 |].
  split; [exact H3 |].
  exact (proj2 (X17_confirm_twice_is_confirm_once quiet_platform ast_parse
                  {| Calculator._expr := "2+3*4" |} 14 "14" H0 H1 H2 H3)).
Defined.

(** ** Once the display shows [Error] *)

Lemma eval_starts_refused (node : AST) :
  starts_refused node = true -> exists msg, _eval node = Throw (ValueError msg).
Proof.
  induction node as [body IH | l IHl op r IHr | op operand IH | v
                     | func args keywords | id | obj IH attr | obj IH
                     | elts | cls]; intros H; try discriminate;
    try (eexists; reflexivity).
  - apply IH, H.
  - destruct (IHl H) as [msg E]. exists msg. cbn [_eval]. now rewrite E.
Qed.

Lemma rule_trailers_refused (fuel : nat) : keeps_refused rule_trailers fuel.
Proof.
  induction fuel as [| fuel IH]; intros e ts e' ts' He H; [discriminate |].
  cbn [rule_trailers] in H. unfold expect_rpar in H.
  destruct ts as [| [] ts1]; try (injection H as <- <-; exact He).
  - destruct ts1 as [| [] ts2];
      try (destruct (rule_sum fuel _) as [[a [| [] ts3]] |];
           try discriminate; now apply IH in H).
    now apply IH in H.
  - destruct ts1 as [| [] ts2]; try (injection H as <- <-; exact He).
    destruct (is_keyword id); [discriminate |]. now apply IH in H.
Qed.

Lemma rule_term_rest_refused (fuel : nat) : keeps_refused rule_term_rest fuel.
Proof.
  induction fuel as [| fuel IH]; intros e ts e' ts' He H; [discriminate |].
  cbn [rule_term_rest] in H.
  destruct ts as [| [] ts1]; try (injection H as <- <-; exact He);
    destruct (rule_factor fuel ts1) as [[a ts2] |]; try discriminate;
    now apply IH in H.
Qed.

Lemma rule_sum_rest_refused (fuel : nat) : keeps_refused rule_sum_rest fuel.
Proof.
  induction fuel as [| fuel IH]; intros e ts e' ts' He H; [discriminate |].
  cbn [rule_sum_rest] in H.
  destruct ts as [| [] ts1]; try (injection H as <- <-; exact He);
    destruct (rule_term fuel ts1) as [[a ts2] |]; try discriminate;
    now apply IH in H.
Qed.

(** An expression whose first token is a name that starts with [E]
    starts with that name. *)
Lemma rule_sum_name (fuel : nat) (id : string) (ts : list token)
    (e : AST) (ts' : list token) :
  rule_sum fuel (NAME (String "E" id) :: ts) = Some (e, ts') ->
  starts_refused e = true.
Proof.
  intros H.
  destruct fuel as [| f1]; [discriminate |]. cbn [rule_sum] in H.
  destruct (rule_term f1 _) as [[e1 ts1] |] eqn:H1; [| discriminate].
  refine (rule_sum_rest_refused f1 e1 ts1 e ts' _ H). clear H.
  destruct f1 as [| f2]; [discriminate |]. cbn [rule_term] in H1.
  destruct (rule_factor f2 _) as [[e2 ts2] |] eqn:H2; [| discriminate].
  refine (rule_term_rest_refused f2 e2 ts2 e1 ts1 _ H1). clear H1.
  destruct f2 as [| f3]; [discriminate |]. cbn [rule_factor] in H2.
  destruct f3 as [| f4]; [discriminate |]. cbn [rule_power] in H2.
  destruct (rule_primary f4 _) as [[e4 ts4] |] eqn:H4; [| discriminate].
  assert (He4 : starts_refused e4 = true).
  { destruct f4 as [| f5]; [discriminate |]. cbn [rule_primary] in H4.
    destruct (rule_atom f5 _) as [[e5 ts5] |] eqn:H5; [| discriminate].
    refine (rule_trailers_refused f5 e5 ts5 e4 ts4 _ H4).
    destruct f5 as [| f6]; [discriminate |]. cbn in H5.
    now injection H5 as <- <-. }
  destruct ts4 as [| [] ts5]; try (injection H2 as <- <-; exact He4).
  destruct (rule_factor f4 ts5) as [[e6 ts6] |]; [| discriminate].
  injection H2 as <- <-. exact He4.
Qed.

Lemma tokenize_name (fuel : nat) (s : string) (ts : list token) :
  tokenize fuel (String "E" s) = Some ts ->
  exists id ts', ts = NAME (String "E" id) :: ts'.
Proof.
  destruct fuel as [| fuel]; [discriminate |]. cbn [tokenize].
  change (isdigit "E") with false. cbv iota.
  change (Ascii.eqb "E" ".")%char with false.
  change (Ascii.eqb "E" "+")%char with false.
  change (Ascii.eqb "E" "-")%char with false.
  change (Ascii.eqb "E" "%")%char with false.
  change (Ascii.eqb "E" "(")%char with false.
  change (Ascii.eqb "E" ")")%char with false.
  change (Ascii.eqb "E" "*")%char with false.
  change (Ascii.eqb "E" "/")%char with false.
  change (is_quote "E") with false.
  change (is_name_start "E") with true. cbv iota.
  cbn [scan_name]. change (is_name_char "E") with true. cbv iota.
  destruct (scan_name s) as [id rest].
  destruct (starts_with is_quote rest); [discriminate |].
  destruct (tokenize fuel rest) as [ts' |]; [| discriminate].
  intros [= <-]. eauto.
Qed.

Lemma ast_parse_name (s : string) (node : AST) :
  ast_parse (String "E" s) = Some node -> starts_refused node = true.
Proof.
  unfold ast_parse.
  destruct (tokenize _ _) as [ts |] eqn:Ht; [| discriminate].
  destruct (tokenize_name _ _ _ Ht) as [id [ts' ->]].
  destruct (rule_sum _ _) as [[body [| t rest]] |] eqn:Hs; try discriminate.
  intros [= <-]. cbn [starts_refused]. exact (rule_sum_name _ _ _ _ _ Hs).
Qed.

Lemma safe_eval_name (P : platform) (s : string) :
  exists e, run P (safe_eval ast_parse (String "E" s)) = Raise e.
Proof.
  unfold safe_eval. cbn [replace].
  change (Ascii.eqb "E" "^")%char with false. cbv iota.
  destruct (ast_parse _) as [node |] eqn:Hp; [| eexists; reflexivity].
  destruct (eval_starts_refused node (ast_parse_name _ _ Hp)) as [msg ->].
  eexists; reflexivity.
Qed.

(** X18.  Once the display shows ["Error"], whatever keys are typed
    after it, the Enter key leaves ["Error"] on the display: the marker
    reads as a name, which the walk meets first and refuses. *)
Theorem X18_error_stays_on_the_display
    (P : platform) (keys : string) :
  all is_key keys = true ->
  run P (Calculator.key_presses ast_parse (typing keys ++ ["<Return>"])
           {| Calculator._expr := "Error" |}) =
  Return {| Calculator._expr := "Error" |}.
Proof.
  intros Hk. rewrite key_presses_app, (key_presses_typing ast_parse keys _ Hk).
  cbn [run Calculator.key_presses Calculator._expr].
  change (Calculator.key_press ast_parse "<Return>" ?x)
    with (Calculator.evaluate ast_parse x).
  rewrite run_bind.
  assert (Hs : strip ("Error" ++ keys) = "Error" ++ keys).
  { apply strip_no_space. rewrite all_append.
    apply andb_true_iff. split; [reflexivity |].
    revert Hk. apply all_impl. intros c Hc.
    now rewrite (is_key_not_space c Hc). }
  rewrite (evaluate_stripped P ast_parse _ Hs) by discriminate.
  destruct (safe_eval_name P ("rror" ++ keys)) as [e He].
  change ("Error" ++ keys) with (String "E" ("rror" ++ keys)).
  now rewrite He.
Qed.

(** [Error], then the keys [+], [1] and Enter. *)
Lemma X18_error_plus_one_witness :
  all is_key "+1" = true /\
  run quiet_platform
      (Calculator.key_presses ast_parse ["+"; "1"; "<Return>"]
         {| Calculator._expr := "Error" |}) =
    Return {| Calculator._expr := "Error" |}.
Proof.
  split; [reflexivity |].
  exact (X18_error_stays_on_the_display quiet_platform "+1" eq_refl).
Defined.

(** ** The buttons *)

Lemma unpack_each_readable (items : list Calculator.item) :
  (forall it, In it items -> Calculator.text it <> "") ->
  Calculator.unpack_each (map Calculator.readable items) = Ret tt.
Proof.
  induction items as [| it items IH]; intros H; [reflexivity |].
  cbn [map Calculator.unpack_each]. unfold Calculator.readable at 1.
  destruct (Calculator.text it) eqn:E.
  - now destruct (H it (or_introl eq_refl)).
  - cbn. apply IH. intros it' Hin. apply H. now right.
Qed.

Lemma unpack_each_unreadable (items : list Calculator.item) :
  (exists it, In it items /\ Calculator.text it = "") ->
  Calculator.unpack_each (map Calculator.readable items) = Throw TypeError.
Proof.
  induction items as [| it items IH]; intros [it' [Hin E]]; [destruct Hin |].
  cbn [map Calculator.unpack_each]. unfold Calculator.readable at 1.
  destruct (Calculator.text it) eqn:Et; [reflexivity |].
  cbn. apply IH. exists it'. destruct Hin as [-> | Hin]; [congruence | auto].
Qed.

(** X19.  [_create_buttons] makes one button per entry, with the label
    and the callback of the entry, when every label is non-empty; an
    entry with an empty label makes its first loop raise [TypeError]
    (unpacking [None]).  Every label of [btns] is non-empty. *)
Theorem X19_creating_the_buttons
    (items : list Calculator.item) :
  ((forall it, In it items -> Calculator.text it <> "") ->
   exists buttons,
     Calculator._create_buttons items = Ret buttons /\
     map Calculator.label buttons = map Calculator.text items /\
     map Calculator.callback buttons = map Calculator.cmd items) /\
  ((exists it, In it items /\ Calculator.text it = "") ->
   Calculator._create_buttons items = Throw TypeError) /\
  (forall it, In it Calculator.btns -> Calculator.text it <> "").
Proof.
  unfold Calculator._create_buttons. repeat split.
  - intros H. rewrite (unpack_each_readable items H). eexists.
    split; [reflexivity |]. rewrite !map_map. split; reflexivity.
  - intros H. now rewrite (unpack_each_unreadable items H).
  - intros it H. cbn in H.
    repeat (destruct H as [<- | H]; [discriminate |]). contradiction.
Qed.

(** The buttons of the window are created. *)
Lemma X19_buttons_witness :
  exists buttons,
    Calculator._create_buttons Calculator.btns = Ret buttons /\
    map Calculator.label buttons = map Calculator.text Calculator.btns /\
    map Calculator.callback buttons = map Calculator.cmd Calculator.btns.
Proof.
  exact (proj1 (X19_creating_the_buttons Calculator.btns)
           (proj2 (proj2 (X19_creating_the_buttons Calculator.btns)))).
Defined.

(** X20.  The buttons of the window cover each cell of rows 1 to 6 and
    columns 0 to 3 of the grid once: no two buttons overlap, none lies
    outside the four columns, no cell is left empty. *)
Theorem X20_buttons_tile_the_grid :
  exists buttons,
    Calculator._create_buttons Calculator.btns = Ret buttons /\
    NoDup (flat_map Calculator.cells buttons) /\
    (forall r c, In (r, c) (flat_map Calculator.cells buttons) <->
                 1 <= r <= 6 /\ 0 <= c <= 3).
Proof.
  eexists. split; [reflexivity |]. split.
  - cbn. repeat (constructor;
                 [intros H; cbn in H;
                  repeat (destruct H as [H | H]; [discriminate H |]);
                  exact H |]).
    constructor.
  - intros r c. split.
    + cbn. intros H.
      repeat (destruct H as [[= <- <-] | H]; [lia |]). contradiction.
    + intros [Hr Hc].
      assert (R : r = 1 \/ r = 2 \/ r = 3 \/ r = 4 \/ r = 5 \/ r = 6) by lia.
      assert (C : c = 0 \/ c = 1 \/ c = 2 \/ c = 3) by lia.
      cbn.
      destruct R as [-> | [-> | [-> | [-> | [-> | ->]]]]];
        destruct C as [-> | [-> | [-> | ->]]];
        repeat (first [left; reflexivity | right]).
Qed.

Lemma binding_In (l : list (string * Calculator.command)) (k : string)
    (c : Calculator.command) :
  Calculator.binding l k = Some c -> In (k, c) l.
Proof.
  induction l as [| [s c'] l IH]; [discriminate |].
  cbn [Calculator.binding].
  destruct (Calculator.binding l k) as [c'' |].
  - intros [= ->]. right. now apply IH.
  - destruct (String.eqb_spec s k) as [-> |]; [| discriminate].
    intros [= ->]. now left.
Qed.

Ltac find_button :=
  match goal with
  | |- exists b, In b ?l /\ _ =>
      let l' := eval cbv delta [Calculator.btns] in l in
      let rec go l :=
        match l with
        | ?x :: ?l' =>
            first [ exists x; split;
                    [cbn; repeat (first [left; reflexivity | right])
                    | reflexivity]
                  | go l' ]
        end in
      go l'
  end.

(** X21.  The keyboard does what the buttons do: a callback is on a
    button exactly when it is bound to a key; a button that appends a
    character appends its own label; a key that appends a character
    appends itself, one character. *)
Theorem X21_keyboard_and_buttons_agree :
  (forall c : Calculator.command,
      (exists b, In b Calculator.btns /\ Calculator.cmd b = c) <->
      (exists k, Calculator.binding Calculator._bind_keys k = Some c)) /\
  (forall b char,
      In b Calculator.btns -> Calculator.cmd b = Calculator.Append char ->
      Calculator.text b = char) /\
  (forall k char,
      Calculator.binding Calculator._bind_keys k =
        Some (Calculator.Append char) ->
      k = char /\ String.length char = 1%nat).
Proof.
  split; [| split].
  - intros c. split.
    + intros [b [Hb <-]]. cbn in Hb.
      repeat (destruct Hb as [<- | Hb];
              [first [ exists "<Delete>"; reflexivity
                     | exists "<BackSpace>"; reflexivity
                     | exists "<Return>"; reflexivity
                     | match goal with
                       | |- exists k, _ = Some (Calculator.cmd ?b) =>
                           exists (Calculator.text b); reflexivity
                       end ] |]).
      contradiction.
    + intros [k H]. apply binding_In in H. cbn in H.
      repeat (destruct H as [[= <- <-] | H]; [find_button |]).
      contradiction.
  - intros b char Hb. cbn in Hb.
    repeat (destruct Hb as [<- | Hb];
            [cbn; intros H; first [discriminate H | now injection H as <-] |]).
    destruct Hb.
  - intros k char H. apply binding_In in H. cbn in H.
    repeat (destruct H as [E | H];
            [first [discriminate E | injection E as <- <-; split; reflexivity]
            |]).
    destruct H.
Qed.

(** The button and the key [7]. *)
Lemma X21_seven_witness :
  In {| Calculator.text := "7"; Calculator.row := 2; Calculator.column := 0;
        Calculator.cmd := Calculator.Append "7"; Calculator.rest := [] |}
     Calculator.btns /\
  Calculator.binding Calculator._bind_keys "7" = Some (Calculator.Append "7") /\
  "7" = "7" /\ String.length "7" = 1%nat.
Proof.
  split; [cbn; tauto |]. split; [reflexivity |].
  exact (proj2 (proj2 X21_keyboard_and_buttons_agree) "7" "7" eq_refl).
Defined.
